(** * SGSIM: grid, evolutionary model state, statistics and synthesis

    A shallow embedding of the core of the SGSIM stochastic ground-motion
    model: [domain_config.py], [model_config.py], [model_core.py],
    [parametric_functions.py] and [stochastic_model.py].

    - numpy's float64 is Rocq's primitive binary64 [float]; a one-dimensional
      [ndarray] is a [list float].  IEEE division, square root, NaN and the
      infinities are therefore the kernel's own, not an idealisation.
    - A Python object is a record of its attributes; a method is a
      computation in a state-and-exception monad over that record, so an
      exception leaves behind exactly the mutations made before it.
    - Collaborators whose source is outside the files above (the FFT, the
      random stream, the filter and synthesis kernels, libm) are fields of a
      type class. *)

From Stdlib Require String.
From Stdlib Require Import ZArith List Lia Bool Floats.
Import ListNotations.

(** ** Python exceptions and results *)

Inductive exn : Type :=
| ValueError
| TypeError
| IndexError
| OverflowError.

Inductive result (A : Type) : Type :=
| Ok (a : A)
| Raise (e : exn).

Arguments Ok {A} a.
Arguments Raise {A} e.

(** A method of an object whose attributes are [S]: it returns or raises,
    and in both cases hands back the attributes as it left them. *)
Definition M (S A : Type) : Type := S -> result A * S.

Definition ret {S A} (a : A) : M S A := fun s => (Ok a, s).

Definition bind {S A B} (c : M S A) (k : A -> M S B) : M S B :=
  fun s => match c s with
           | (Ok a, s') => k a s'
           | (Raise e, s') => (Raise e, s')
           end.

Definition gets {S A} (f : S -> A) : M S A := fun s => (Ok (f s), s).

Definition modify {S} (f : S -> S) : M S unit := fun s => (Ok tt, f s).

Definition lift {S A} (r : result A) : M S A := fun s => (r, s).

(** Run a method of a component [T] of the object (a superclass's
    attributes) on the whole object. *)
Definition zoom {S T A} (get : S -> T) (put : T -> S -> S) (c : M T A) : M S A :=
  fun s => let (r, t') := c (get s) in (r, put t' s).

Declare Scope monad_scope.
Delimit Scope monad_scope with monad.
Notation "x <- c ;; k" := (bind c (fun x => k))
  (at level 61, c at next level, right associativity) : monad_scope.
Notation "c ;;; k" := (bind c (fun _ => k))
  (at level 61, right associativity) : monad_scope.

(** ** numpy *)

Module np.

Definition ndarray : Type := list float.

(** [np.pi], the binary64 nearest to pi (3.141592653589793). *)
Definition pi : float := 0x1.921fb54442d18p+1%float.

Definition zeros (n : nat) : ndarray := repeat 0%float n.

Definition zeros_like (a : ndarray) : ndarray := zeros (length a).

(** [a.fill(v)]: in place, the length stays. *)
Definition fill (a : ndarray) (v : float) : ndarray := map (fun _ => v) a.

Fixpoint map2 (f : float -> float -> float) (a b : ndarray) : ndarray :=
  match a, b with
  | x :: a', y :: b' => f x y :: map2 f a' b'
  | _, _ => []
  end.

(** An elementwise binary operator on two one-dimensional arrays: equal
    shapes pair up, a length-one operand is stretched, anything else is the
    broadcasting ValueError. *)
Definition broadcast2 (f : float -> float -> float) (a b : ndarray)
  : result ndarray :=
  if Nat.eqb (length a) (length b) then Ok (map2 f a b)
  else match a, b with
       | [x], _ => Ok (map (f x) b)
       | _, [y] => Ok (map (fun x => f x y) a)
       | _, _ => Raise ValueError
       end.

Definition divide : ndarray -> ndarray -> result ndarray := broadcast2 PrimFloat.div.
Definition subtract : ndarray -> ndarray -> result ndarray := broadcast2 PrimFloat.sub.
Definition add : ndarray -> ndarray -> result ndarray := broadcast2 PrimFloat.add.

(** Array-with-scalar operators. *)
Definition div_scalar (a : ndarray) (c : float) : ndarray := map (fun x => (x / c)%float) a.
Definition mul_scalar (a : ndarray) (c : float) : ndarray := map (fun x => (x * c)%float) a.
Definition scalar_mul (c : float) (a : ndarray) : ndarray := map (fun x => (c * x)%float) a.

Definition sqrt (a : ndarray) : ndarray := map PrimFloat.sqrt a.

(** [np.cumsum]: the first entry is copied, every later one is the previous
    output plus the next input, in that order. *)
Fixpoint cumsum_from (acc : float) (a : ndarray) : ndarray :=
  match a with
  | [] => []
  | x :: a' => let s := (acc + x)%float in s :: cumsum_from s a'
  end.

Definition cumsum (a : ndarray) : ndarray :=
  match a with
  | [] => []
  | x :: a' => x :: cumsum_from x a'
  end.

(** [np.isfinite] on one value, read off the IEEE class. *)
Definition isfinite (x : float) : bool :=
  match Prim2SF x with
  | S754_zero _ | S754_finite _ _ _ => true
  | S754_infinity _ | S754_nan => false
  end.

(** [x == 0.0]: true of both signed zeros. *)
Definition is_zero (x : float) : bool := PrimFloat.eqb x 0%float.

(** [a[:] = v]: [v] must have [a]'s shape or stretch to it. *)
Definition assign_all (a v : ndarray) : result ndarray :=
  if Nat.eqb (length v) (length a) then Ok v
  else match v with
       | [x] => Ok (fill a x)
       | _ => Raise ValueError
       end.

(** [a[1:-1]]. *)
Definition interior (a : ndarray) : ndarray := removelast (tl a).

(** [a[1:-1] = v] for [v] of the slice's own length (the only use made of
    it); shorter arrays have an empty slice. *)
Definition assign_interior (a v : ndarray) : result ndarray :=
  if Nat.eqb (length v) (length (interior a)) then
    match a with
    | x :: (_ :: _) as a' => Ok (x :: v ++ [last a' x])
    | _ => Ok a
    end
  else Raise ValueError.

(** [np.zeros((k, n))]: a negative dimension is a ValueError. *)
Definition zeros_rows (n : Z) : result ndarray :=
  if (n <? 0)%Z then Raise ValueError else Ok (zeros (Z.to_nat n)).

End np.

Abbreviation ndarray := np.ndarray.

(** A Python [int] as a binary64, for non-negative values below 2^63. *)
Definition float_of_Z (z : Z) : float := PrimFloat.of_uint63 (Uint63.of_Z z).

(** ** signal_analysis (grid helpers) *)

Module signal_analysis.

(** Modelled from the spec: [signal_analysis.get_time] is not among the
    sources.  The spec gives the time axis as "length npts, uniform step dt,
    starts at 0". *)
Definition get_time (npts : Z) (dt : float) : ndarray :=
  map (fun k => (float_of_Z (Z.of_nat k) * dt)%float) (seq 0 (Z.to_nat npts)).

(** Modelled from the spec: [signal_analysis.get_freq] is not among the
    sources.  The spec gives an angular-frequency axis whose length is that of
    the signal it is generated for ([len(freq) == npts]), zero-frequency bin
    first; bin [k] is taken as [2*pi*k/(n*dt)]. *)
Definition get_freq (n : Z) (dt : float) : ndarray :=
  map (fun k => (2 * np.pi * (float_of_Z (Z.of_nat k) / (float_of_Z n * dt)))%float)
      (seq 0 (Z.to_nat n)).

(** Modelled from the spec: [signal_analysis.get_freq_mask] is not among the
    sources.  The spec gives "a boolean selection over freq" for a (low, high)
    band in Hz. *)
Definition get_freq_mask (freq : ndarray) (target_range : float * float) : list bool :=
  map (fun w => PrimFloat.leb (2 * np.pi * fst target_range) w
                && PrimFloat.leb w (2 * np.pi * snd target_range)) freq.

End signal_analysis.

(** ** domain_config.py *)

Module domain_config.

Import signal_analysis.
Local Open Scope monad_scope.

(** The attributes of a [DomainConfig]: the two stored scalars and the ten
    caches, [None] until first read. *)
Record DomainConfig : Type := {
  _npts : Z;
  _dt : float;
  _t : option ndarray;
  _freq : option ndarray;
  _freq_sim : option ndarray;
  _freq_sim_p2 : option ndarray;
  _freq_mask : option (list bool);
  _tp : option ndarray;
  _freq_p2 : option ndarray;
  _freq_p4 : option ndarray;
  _freq_n2 : option ndarray;
  _freq_n4 : option ndarray
}.

(** [_reset_cache]: every cache back to [None]; the scalars stay. *)
Definition _reset_cache (d : DomainConfig) : DomainConfig :=
  {| _npts := _npts d; _dt := _dt d;
     _t := None; _freq := None; _freq_sim := None; _freq_sim_p2 := None;
     _freq_mask := None; _tp := None;
     _freq_p2 := None; _freq_p4 := None; _freq_n2 := None; _freq_n4 := None |}.

(** [__init__(npts, dt)]: stores both as given and resets the caches. *)
Definition __init__ (npts : Z) (dt : float) : result DomainConfig :=
  Ok {| _npts := npts; _dt := dt;
        _t := None; _freq := None; _freq_sim := None; _freq_sim_p2 := None;
        _freq_mask := None; _tp := None;
        _freq_p2 := None; _freq_p4 := None; _freq_n2 := None; _freq_n4 := None |}.

Definition npts : M DomainConfig Z := gets _npts.

Definition set_npts (num_points : Z) : M DomainConfig unit :=
  modify (fun d =>
    _reset_cache
      {| _npts := num_points; _dt := _dt d;
         _t := _t d; _freq := _freq d; _freq_sim := _freq_sim d;
         _freq_sim_p2 := _freq_sim_p2 d; _freq_mask := _freq_mask d; _tp := _tp d;
         _freq_p2 := _freq_p2 d; _freq_p4 := _freq_p4 d;
         _freq_n2 := _freq_n2 d; _freq_n4 := _freq_n4 d |}).

Definition dt : M DomainConfig float := gets _dt.

Definition set_dt (time_step : float) : M DomainConfig unit :=
  modify (fun d =>
    _reset_cache
      {| _npts := _npts d; _dt := time_step;
         _t := _t d; _freq := _freq d; _freq_sim := _freq_sim d;
         _freq_sim_p2 := _freq_sim_p2 d; _freq_mask := _freq_mask d; _tp := _tp d;
         _freq_p2 := _freq_p2 d; _freq_p4 := _freq_p4 d;
         _freq_n2 := _freq_n2 d; _freq_n4 := _freq_n4 d |}).

(** Writers of one cache each. *)
Definition with_t (v : option ndarray) (d : DomainConfig) : DomainConfig :=
  {| _npts := _npts d; _dt := _dt d; _t := v; _freq := _freq d;
     _freq_sim := _freq_sim d; _freq_sim_p2 := _freq_sim_p2 d;
     _freq_mask := _freq_mask d; _tp := _tp d; _freq_p2 := _freq_p2 d;
     _freq_p4 := _freq_p4 d; _freq_n2 := _freq_n2 d; _freq_n4 := _freq_n4 d |}.

Definition with_freq (v : option ndarray) (d : DomainConfig) : DomainConfig :=
  {| _npts := _npts d; _dt := _dt d; _t := _t d; _freq := v;
     _freq_sim := _freq_sim d; _freq_sim_p2 := _freq_sim_p2 d;
     _freq_mask := _freq_mask d; _tp := _tp d; _freq_p2 := _freq_p2 d;
     _freq_p4 := _freq_p4 d; _freq_n2 := _freq_n2 d; _freq_n4 := _freq_n4 d |}.

Definition with_freq_sim (v : option ndarray) (d : DomainConfig) : DomainConfig :=
  {| _npts := _npts d; _dt := _dt d; _t := _t d; _freq := _freq d;
     _freq_sim := v; _freq_sim_p2 := _freq_sim_p2 d;
     _freq_mask := _freq_mask d; _tp := _tp d; _freq_p2 := _freq_p2 d;
     _freq_p4 := _freq_p4 d; _freq_n2 := _freq_n2 d; _freq_n4 := _freq_n4 d |}.

Definition with_freq_mask (v : option (list bool)) (d : DomainConfig) : DomainConfig :=
  {| _npts := _npts d; _dt := _dt d; _t := _t d; _freq := _freq d;
     _freq_sim := _freq_sim d; _freq_sim_p2 := _freq_sim_p2 d;
     _freq_mask := v; _tp := _tp d; _freq_p2 := _freq_p2 d;
     _freq_p4 := _freq_p4 d; _freq_n2 := _freq_n2 d; _freq_n4 := _freq_n4 d |}.

(** [t]: computed on first read, then served from the cache. *)
Definition t : M DomainConfig ndarray :=
  c <- gets _t ;;
  match c with
  | Some a => ret a
  | None =>
      n <- gets _npts ;; h <- gets _dt ;;
      let a := get_time n h in
      modify (with_t (Some a)) ;;; ret a
  end.

Definition freq : M DomainConfig ndarray :=
  c <- gets _freq ;;
  match c with
  | Some a => ret a
  | None =>
      n <- gets _npts ;; h <- gets _dt ;;
      let a := get_freq n h in
      modify (with_freq (Some a)) ;;; ret a
  end.

(** [int(2 ** np.ceil(np.log2(2 * npts)))].  On a positive count the three
    binary64 operations are taken at their exact values, the least power of
    two that is at least [2 * npts]; [log2 0] is minus infinity, whose
    exponential converts to 0; the logarithm of a negative number is NaN,
    which [int] refuses. *)
Definition npts_sim (n : Z) : result Z :=
  if (0 <? n)%Z then Ok (2 ^ Z.log2_up (2 * n))%Z
  else if (n =? 0)%Z then Ok 0%Z
  else Raise ValueError.

Definition freq_sim : M DomainConfig ndarray :=
  c <- gets _freq_sim ;;
  match c with
  | Some a => ret a
  | None =>
      n <- gets _npts ;;
      ns <- lift (npts_sim n) ;;
      h <- gets _dt ;;
      let a := get_freq ns h in
      modify (with_freq_sim (Some a)) ;;; ret a
  end.

(** The [freq_mask] setter, and the getter that installs the default band
    through it. *)
Definition set_freq_mask (target_range : float * float) : M DomainConfig unit :=
  f <- freq ;;
  modify (with_freq_mask (Some (get_freq_mask f target_range))).

(** The power helpers ([freq_p2], [freq_p4], [freq_n2], [freq_n4],
    [freq_sim_p2]) and [tp] are caches of the same pattern; only their reset
    matters below. *)

Definition freq_mask : M DomainConfig (list bool) :=
  c <- gets _freq_mask ;;
  match c with
  | Some a => ret a
  | None =>
      set_freq_mask (0x1.999999999999ap-4, 25)%float ;;;
      c' <- gets _freq_mask ;;
      match c' with
      | Some a => ret a
      | None => ret []
      end
  end.

End domain_config.

(** ** parametric_functions.py *)

(** The elementary functions the shape functions call: [np.exp], [np.log],
    the float power operator and [scipy.special.beta]. *)
Class Libm : Type := {
  exp : float -> float;
  log : float -> float;
  pow : float -> float -> float;
  beta : float -> float -> float
}.

Module parametric_functions.

Import Stdlib.Strings.String.
Local Open Scope float_scope.

(** The nine shape functions.  Each takes the time axis and a parameter
    vector, which it unpacks into as many names as it needs. *)

(** What every shape function returns: the series, the parameters as given,
    and their names. *)
Definition shaped : Type := (ndarray * list float * list string)%type.

(** [t[-1]]. *)
Definition last_sample (t : ndarray) : result float :=
  match t with
  | [] => Raise IndexError
  | x :: t' => Ok (last t' x)
  end.

Definition linear (t : ndarray) (params : list float) : result shaped :=
  match params with
  | [pf; pl] =>
      match last_sample t with
      | Ok tl => Ok (map (fun x => pf - (pf - pl) * (x / tl)) t, params,
                     ["pf"; "pl"]%string)
      | Raise e => Raise e
      end
  | _ => Raise ValueError
  end.

Definition constant (t : ndarray) (params : list float) : result shaped :=
  match params with
  | pc :: _ => Ok (map (fun _ => pc) t, params, ["pc"]%string)
  | [] => Raise IndexError
  end.

Section WithLibm.

Context {libm : Libm}.

Definition exponential (t : ndarray) (params : list float) : result shaped :=
  match params with
  | [pf; pl] =>
      match last_sample t with
      | Ok tl => Ok (map (fun x => pf * exp (log (pl / pf) * (x / tl))) t, params,
                     ["pf"; "pl"]%string)
      | Raise e => Raise e
      end
  | _ => Raise ValueError
  end.

(** The quadratic background density, [0.05 * (6 * (x * (tn - x)) / tn ** 3)],
    at one interior sample. *)
Definition background (tn x : float) : float :=
  0x1.999999999999ap-5 * (6 * (x * (tn - x)) / pow tn 3).

(** One Beta density in its logarithmic form, at one interior sample:
    [exp(c*p*log(x) + c*(1-p)*log(tn-x) - log(beta(1+c*p, 1+c*(1-p))) - (1+c)*log(tn))]. *)
Definition beta_density (p c tn x : float) : float :=
  exp ((c * p) * log x + (c * (1 - p)) * log (tn - x)
       - log (beta (1 + c * p) (1 + c * (1 - p))) - (1 + c) * log tn).

(** [beta_single]: the two densities are evaluated on [t[1:-1]] only and
    written into the interior of a zero array; the square root of [Et] times
    that array is the envelope. *)
Definition beta_single (t : ndarray) (params : list float) : result shaped :=
  match params with
  | [p1; c1; Et; tn] =>
      let ti := np.interior t in
      let mdl1 := map (background tn) ti in
      let mdl2 := map (fun x => 0x1.e666666666666p-1 * beta_density p1 c1 tn x) ti in
      match np.add mdl1 mdl2 with
      | Ok s =>
          match np.assign_interior (np.zeros_like t) s with
          | Ok multi_mdl =>
              Ok (np.sqrt (np.scalar_mul Et multi_mdl), params,
                  ["p1"; "c1"; "Et"; "tn"]%string)
          | Raise e => Raise e
          end
      | Raise e => Raise e
      end
  | _ => Raise ValueError
  end.

Definition beta_dual (t : ndarray) (params : list float) : result shaped :=
  match params with
  | [p1; c1; p2; c2; a1; Et; tn] =>
      let ti := np.interior t in
      let mdl1 := map (background tn) ti in
      let mdl2 := map (fun x => a1 * beta_density p1 c1 tn x) ti in
      let mdl3 := map (fun x => (0x1.e666666666666p-1 - a1) * beta_density p2 c2 tn x) ti in
      match np.add mdl1 mdl2 with
      | Ok s12 =>
          match np.add s12 mdl3 with
          | Ok s =>
              match np.assign_interior (np.zeros_like t) s with
              | Ok multi_mdl =>
                  Ok (np.sqrt (np.scalar_mul Et multi_mdl), params,
                      ["p1"; "c1"; "p2"; "c2"; "a1"; "Et"; "tn"]%string)
              | Raise e => Raise e
              end
          | Raise e => Raise e
          end
      | Raise e => Raise e
      end
  | _ => Raise ValueError
  end.

End WithLibm.

End parametric_functions.

(** ** model_config.py *)

Module model_config.

Import domain_config.
Local Open Scope monad_scope.

(** A shape function as [ModelConfig] calls it, [func(t, *params)]: it
    returns the series or raises. *)
Definition shape_func : Type := ndarray -> list float -> result ndarray.

(** The five function attributes given to the constructor. *)
Record Funcs : Type := {
  mdl_func : shape_func;
  wu_func : shape_func;
  zu_func : shape_func;
  wl_func : shape_func;
  zl_func : shape_func
}.

(** The five stored series. *)
Record Series : Type := {
  _mdl : ndarray;
  _wu : ndarray;
  _zu : ndarray;
  _wl : ndarray;
  _zl : ndarray
}.

(** The raw parameter vectors, absent until the first assignment. *)
Record Params : Type := {
  mdl_params : option (list float);
  wu_params : option (list float);
  zu_params : option (list float);
  wl_params : option (list float);
  zl_params : option (list float)
}.

(** The derived statistics: five variance arrays, the cumulative energy,
    the nine cumulative extrema-rate curves, and the amplitude spectrum. *)
Record Stats : Type := {
  variance : ndarray;
  variance_dot : ndarray;
  variance_2dot : ndarray;
  variance_bar : ndarray;
  variance_2bar : ndarray;
  _ce : ndarray;
  _mle_ac : ndarray;
  _mle_vel : ndarray;
  _mle_disp : ndarray;
  _mzc_ac : ndarray;
  _mzc_vel : ndarray;
  _mzc_disp : ndarray;
  _pmnm_ac : ndarray;
  _pmnm_vel : ndarray;
  _pmnm_disp : ndarray;
  _fas : ndarray
}.

(** A [ModelConfig]: the attributes of its [DomainConfig] base and its own. *)
Record ModelConfig : Type := {
  grid : DomainConfig;
  funcs : Funcs;
  series : Series;
  params : Params;
  stats : Stats
}.

Definition with_grid (g : DomainConfig) (m : ModelConfig) : ModelConfig :=
  {| grid := g; funcs := funcs m; series := series m; params := params m; stats := stats m |}.

Definition with_series (f : Series -> Series) (m : ModelConfig) : ModelConfig :=
  {| grid := grid m; funcs := funcs m; series := f (series m); params := params m;
     stats := stats m |}.

Definition with_params (f : Params -> Params) (m : ModelConfig) : ModelConfig :=
  {| grid := grid m; funcs := funcs m; series := series m; params := f (params m);
     stats := stats m |}.

Definition with_stats (f : Stats -> Stats) (m : ModelConfig) : ModelConfig :=
  {| grid := grid m; funcs := funcs m; series := series m; params := params m;
     stats := f (stats m) |}.

(** A method inherited from [DomainConfig], run on a [ModelConfig]. *)
Definition inherited {A} (c : M DomainConfig A) : M ModelConfig A := zoom grid with_grid c.

(** [__init__]: the base constructor, the five functions, twenty zero rows
    of length [npts] unpacked into the series and statistics, and a zero
    spectrum of the length of [freq]. *)
Definition __init__ (npts : Z) (dt : float)
    (modulating upper_frequency upper_damping lower_frequency lower_damping : shape_func)
  : result ModelConfig :=
  match domain_config.__init__ npts dt with
  | Raise e => Raise e
  | Ok g =>
      match np.zeros_rows npts with
      | Raise e => Raise e
      | Ok z =>
          match domain_config.freq g with
          | (Raise e, _) => Raise e
          | (Ok f, g') =>
              Ok {| grid := g';
                    funcs := {| mdl_func := modulating; wu_func := upper_frequency;
                                zu_func := upper_damping; wl_func := lower_frequency;
                                zl_func := lower_damping |};
                    series := {| _mdl := z; _wu := z; _zu := z; _wl := z; _zl := z |};
                    params := {| mdl_params := None; wu_params := None; zu_params := None;
                                 wl_params := None; zl_params := None |};
                    stats := {| variance := z; variance_dot := z; variance_2dot := z;
                                variance_bar := z; variance_2bar := z;
                                _ce := z;
                                _mle_ac := z; _mle_vel := z; _mle_disp := z;
                                _mzc_ac := z; _mzc_vel := z; _mzc_disp := z;
                                _pmnm_ac := z; _pmnm_vel := z; _pmnm_disp := z;
                                _fas := np.zeros_like f |} |}
          end
      end
  end.

(** [_reset_attributes]: sixteen in-place fills with 0.0. *)
Definition reset_stats (s : Stats) : Stats :=
  {| _fas := np.fill (_fas s) 0;
     _ce := np.fill (_ce s) 0;
     _mle_ac := np.fill (_mle_ac s) 0;
     _mle_vel := np.fill (_mle_vel s) 0;
     _mle_disp := np.fill (_mle_disp s) 0;
     _mzc_ac := np.fill (_mzc_ac s) 0;
     _mzc_vel := np.fill (_mzc_vel s) 0;
     _mzc_disp := np.fill (_mzc_disp s) 0;
     _pmnm_ac := np.fill (_pmnm_ac s) 0;
     _pmnm_vel := np.fill (_pmnm_vel s) 0;
     _pmnm_disp := np.fill (_pmnm_disp s) 0;
     variance := np.fill (variance s) 0;
     variance_dot := np.fill (variance_dot s) 0;
     variance_2dot := np.fill (variance_2dot s) 0;
     variance_bar := np.fill (variance_bar s) 0;
     variance_2bar := np.fill (variance_2bar s) 0 |}.

Definition _reset_attributes : M ModelConfig unit := modify (with_stats reset_stats).

(** Writers of one series or one parameter vector each. *)
Definition put_mdl (v : ndarray) (s : Series) : Series :=
  {| _mdl := v; _wu := _wu s; _zu := _zu s; _wl := _wl s; _zl := _zl s |}.

Definition put_wu (v : ndarray) (s : Series) : Series :=
  {| _mdl := _mdl s; _wu := v; _zu := _zu s; _wl := _wl s; _zl := _zl s |}.

Definition put_zu (v : ndarray) (s : Series) : Series :=
  {| _mdl := _mdl s; _wu := _wu s; _zu := v; _wl := _wl s; _zl := _zl s |}.

Definition put_wl (v : ndarray) (s : Series) : Series :=
  {| _mdl := _mdl s; _wu := _wu s; _zu := _zu s; _wl := v; _zl := _zl s |}.

Definition put_zl (v : ndarray) (s : Series) : Series :=
  {| _mdl := _mdl s; _wu := _wu s; _zu := _zu s; _wl := _wl s; _zl := v |}.

Definition put_mdl_params (v : list float) (p : Params) : Params :=
  {| mdl_params := Some v; wu_params := wu_params p; zu_params := zu_params p;
     wl_params := wl_params p; zl_params := zl_params p |}.

Definition put_wu_params (v : list float) (p : Params) : Params :=
  {| mdl_params := mdl_params p; wu_params := Some v; zu_params := zu_params p;
     wl_params := wl_params p; zl_params := zl_params p |}.

Definition put_zu_params (v : list float) (p : Params) : Params :=
  {| mdl_params := mdl_params p; wu_params := wu_params p; zu_params := Some v;
     wl_params := wl_params p; zl_params := zl_params p |}.

Definition put_wl_params (v : list float) (p : Params) : Params :=
  {| mdl_params := mdl_params p; wu_params := wu_params p; zu_params := zu_params p;
     wl_params := Some v; zl_params := zl_params p |}.

Definition put_zl_params (v : list float) (p : Params) : Params :=
  {| mdl_params := mdl_params p; wu_params := wu_params p; zu_params := zu_params p;
     wl_params := wl_params p; zl_params := Some v |}.

(** The getters. *)
Definition mdl : M ModelConfig ndarray := gets (fun m => _mdl (series m)).
Definition wu : M ModelConfig ndarray := gets (fun m => _wu (series m)).
Definition zu : M ModelConfig ndarray := gets (fun m => _zu (series m)).
Definition wl : M ModelConfig ndarray := gets (fun m => _wl (series m)).
Definition zl : M ModelConfig ndarray := gets (fun m => _zl (series m)).

(** The setters.  Each reads [self.t], calls its function, writes the result
    through [self._x[:]], records the parameters and resets the statistics;
    the two frequency setters scale the stored series by [2 * np.pi] before
    the reset. *)
Definition set_mdl (ps : list float) : M ModelConfig unit :=
  t <- inherited domain_config.t ;;
  f <- gets (fun m => mdl_func (funcs m)) ;;
  r <- lift (f t ps) ;;
  old <- mdl ;;
  v <- lift (np.assign_all old r) ;;
  modify (with_series (put_mdl v)) ;;;
  modify (with_params (put_mdl_params ps)) ;;;
  _reset_attributes.

Definition set_wu (ps : list float) : M ModelConfig unit :=
  t <- inherited domain_config.t ;;
  f <- gets (fun m => wu_func (funcs m)) ;;
  r <- lift (f t ps) ;;
  old <- wu ;;
  v <- lift (np.assign_all old r) ;;
  modify (with_series (put_wu v)) ;;;
  modify (with_params (put_wu_params ps)) ;;;
  modify (with_series (fun s => put_wu (np.mul_scalar (_wu s) (2 * np.pi)) s)) ;;;
  _reset_attributes.

Definition set_wl (ps : list float) : M ModelConfig unit :=
  t <- inherited domain_config.t ;;
  f <- gets (fun m => wl_func (funcs m)) ;;
  r <- lift (f t ps) ;;
  old <- wl ;;
  v <- lift (np.assign_all old r) ;;
  modify (with_series (put_wl v)) ;;;
  modify (with_params (put_wl_params ps)) ;;;
  modify (with_series (fun s => put_wl (np.mul_scalar (_wl s) (2 * np.pi)) s)) ;;;
  _reset_attributes.

Definition set_zu (ps : list float) : M ModelConfig unit :=
  t <- inherited domain_config.t ;;
  f <- gets (fun m => zu_func (funcs m)) ;;
  r <- lift (f t ps) ;;
  old <- zu ;;
  v <- lift (np.assign_all old r) ;;
  modify (with_series (put_zu v)) ;;;
  modify (with_params (put_zu_params ps)) ;;;
  _reset_attributes.

Definition set_zl (ps : list float) : M ModelConfig unit :=
  t <- inherited domain_config.t ;;
  f <- gets (fun m => zl_func (funcs m)) ;;
  r <- lift (f t ps) ;;
  old <- zl ;;
  v <- lift (np.assign_all old r) ;;
  modify (with_series (put_zl v)) ;;;
  modify (with_params (put_zl_params ps)) ;;;
  _reset_attributes.

End model_config.

(** ** Collaborators outside the sources *)

(** The numerical kernels [model_core.py] and [stochastic_model.py] call and
    whose source is elsewhere: numpy's complex arithmetic and random
    generator, scipy's inverse real FFT, and the repository's own
    [filter_engine] and [model_engine]. *)
Class Collaborators : Type := {
  (** complex128 and the three operations [simulate] applies to it *)
  complex : Type;
  c_div : complex -> complex -> complex;
  c_neg : complex -> complex;
  c_of_real : float -> complex;
  (** [1j * w] *)
  c_j_times : float -> complex;
  (** [scipy.fft.irfft] of one row *)
  irfft_row : list complex -> ndarray;
  (** [np.random.Generator]: seeding, and one standard-normal draw *)
  Generator : Type;
  default_rng : Z -> Generator;
  next_normal : Generator -> float * Generator;
  (** [filter_engine.get_stats(wu, zu, wl, zl, freq)] *)
  filter_engine_get_stats :
    ndarray -> ndarray -> ndarray -> ndarray -> ndarray ->
    ndarray * ndarray * ndarray * ndarray * ndarray;
  (** [model_engine.simulate_fourier_series], the row it builds from one row
      of white noise *)
  simulate_fourier_series_row :
    Z -> ndarray -> ndarray -> ndarray -> ndarray -> ndarray -> ndarray -> ndarray ->
    ndarray -> ndarray -> list complex
}.

(** ** model_core.py *)

Module model_core.

Import domain_config model_config.
Local Open Scope monad_scope.

(** Writers of one cumulative curve each (an attribute assignment). *)
Definition put_mle_ac (v : ndarray) (s : Stats) : Stats :=
  {| variance := variance s; variance_dot := variance_dot s;
     variance_2dot := variance_2dot s; variance_bar := variance_bar s;
     variance_2bar := variance_2bar s; _ce := _ce s; _mle_ac := v; _mle_vel := _mle_vel s;
     _mle_disp := _mle_disp s; _mzc_ac := _mzc_ac s; _mzc_vel := _mzc_vel s;
     _mzc_disp := _mzc_disp s; _pmnm_ac := _pmnm_ac s; _pmnm_vel := _pmnm_vel s;
     _pmnm_disp := _pmnm_disp s; _fas := _fas s |}.

Definition put_mle_vel (v : ndarray) (s : Stats) : Stats :=
  {| variance := variance s; variance_dot := variance_dot s;
     variance_2dot := variance_2dot s; variance_bar := variance_bar s;
     variance_2bar := variance_2bar s; _ce := _ce s; _mle_ac := _mle_ac s; _mle_vel := v;
     _mle_disp := _mle_disp s; _mzc_ac := _mzc_ac s; _mzc_vel := _mzc_vel s;
     _mzc_disp := _mzc_disp s; _pmnm_ac := _pmnm_ac s; _pmnm_vel := _pmnm_vel s;
     _pmnm_disp := _pmnm_disp s; _fas := _fas s |}.

Definition put_mle_disp (v : ndarray) (s : Stats) : Stats :=
  {| variance := variance s; variance_dot := variance_dot s;
     variance_2dot := variance_2dot s; variance_bar := variance_bar s;
     variance_2bar := variance_2bar s; _ce := _ce s; _mle_ac := _mle_ac s;
     _mle_vel := _mle_vel s; _mle_disp := v; _mzc_ac := _mzc_ac s; _mzc_vel := _mzc_vel s;
     _mzc_disp := _mzc_disp s; _pmnm_ac := _pmnm_ac s; _pmnm_vel := _pmnm_vel s;
     _pmnm_disp := _pmnm_disp s; _fas := _fas s |}.

Definition put_mzc_ac (v : ndarray) (s : Stats) : Stats :=
  {| variance := variance s; variance_dot := variance_dot s;
     variance_2dot := variance_2dot s; variance_bar := variance_bar s;
     variance_2bar := variance_2bar s; _ce := _ce s; _mle_ac := _mle_ac s;
     _mle_vel := _mle_vel s; _mle_disp := _mle_disp s; _mzc_ac := v;
     _mzc_vel := _mzc_vel s; _mzc_disp := _mzc_disp s; _pmnm_ac := _pmnm_ac s;
     _pmnm_vel := _pmnm_vel s; _pmnm_disp := _pmnm_disp s; _fas := _fas s |}.

Definition put_mzc_vel (v : ndarray) (s : Stats) : Stats :=
  {| variance := variance s; variance_dot := variance_dot s;
     variance_2dot := variance_2dot s; variance_bar := variance_bar s;
     variance_2bar := variance_2bar s; _ce := _ce s; _mle_ac := _mle_ac s;
     _mle_vel := _mle_vel s; _mle_disp := _mle_disp s; _mzc_ac := _mzc_ac s; _mzc_vel := v;
     _mzc_disp := _mzc_disp s; _pmnm_ac := _pmnm_ac s; _pmnm_vel := _pmnm_vel s;
     _pmnm_disp := _pmnm_disp s; _fas := _fas s |}.

Definition put_mzc_disp (v : ndarray) (s : Stats) : Stats :=
  {| variance := variance s; variance_dot := variance_dot s;
     variance_2dot := variance_2dot s; variance_bar := variance_bar s;
     variance_2bar := variance_2bar s; _ce := _ce s; _mle_ac := _mle_ac s;
     _mle_vel := _mle_vel s; _mle_disp := _mle_disp s; _mzc_ac := _mzc_ac s;
     _mzc_vel := _mzc_vel s; _mzc_disp := v; _pmnm_ac := _pmnm_ac s;
     _pmnm_vel := _pmnm_vel s; _pmnm_disp := _pmnm_disp s; _fas := _fas s |}.

Definition put_pmnm_ac (v : ndarray) (s : Stats) : Stats :=
  {| variance := variance s; variance_dot := variance_dot s;
     variance_2dot := variance_2dot s; variance_bar := variance_bar s;
     variance_2bar := variance_2bar s; _ce := _ce s; _mle_ac := _mle_ac s;
     _mle_vel := _mle_vel s; _mle_disp := _mle_disp s; _mzc_ac := _mzc_ac s;
     _mzc_vel := _mzc_vel s; _mzc_disp := _mzc_disp s; _pmnm_ac := v;
     _pmnm_vel := _pmnm_vel s; _pmnm_disp := _pmnm_disp s; _fas := _fas s |}.

Definition put_pmnm_vel (v : ndarray) (s : Stats) : Stats :=
  {| variance := variance s; variance_dot := variance_dot s;
     variance_2dot := variance_2dot s; variance_bar := variance_bar s;
     variance_2bar := variance_2bar s; _ce := _ce s; _mle_ac := _mle_ac s;
     _mle_vel := _mle_vel s; _mle_disp := _mle_disp s; _mzc_ac := _mzc_ac s;
     _mzc_vel := _mzc_vel s; _mzc_disp := _mzc_disp s; _pmnm_ac := _pmnm_ac s;
     _pmnm_vel := v; _pmnm_disp := _pmnm_disp s; _fas := _fas s |}.

Definition put_pmnm_disp (v : ndarray) (s : Stats) : Stats :=
  {| variance := variance s; variance_dot := variance_dot s;
     variance_2dot := variance_2dot s; variance_bar := variance_bar s;
     variance_2bar := variance_2bar s; _ce := _ce s; _mle_ac := _mle_ac s;
     _mle_vel := _mle_vel s; _mle_disp := _mle_disp s; _mzc_ac := _mzc_ac s;
     _mzc_vel := _mzc_vel s; _mzc_disp := _mzc_disp s; _pmnm_ac := _pmnm_ac s;
     _pmnm_vel := _pmnm_vel s; _pmnm_disp := v; _fas := _fas s |}.

Definition put_variances (v : ndarray * ndarray * ndarray * ndarray * ndarray) (s : Stats)
  : Stats :=
  let '(v0, v1, v2, vb, v2b) := v in
  {| variance := v0; variance_dot := v1; variance_2dot := v2; variance_bar := vb;
     variance_2bar := v2b; _ce := _ce s;
     _mle_ac := _mle_ac s; _mle_vel := _mle_vel s; _mle_disp := _mle_disp s;
     _mzc_ac := _mzc_ac s; _mzc_vel := _mzc_vel s; _mzc_disp := _mzc_disp s;
     _pmnm_ac := _pmnm_ac s; _pmnm_vel := _pmnm_vel s; _pmnm_disp := _pmnm_disp s;
     _fas := _fas s |}.

(** Readers of [self.variance] and its four companions. *)
Definition self_variance : M ModelConfig ndarray := gets (fun m => variance (stats m)).
Definition self_variance_dot : M ModelConfig ndarray := gets (fun m => variance_dot (stats m)).
Definition self_variance_2dot : M ModelConfig ndarray := gets (fun m => variance_2dot (stats m)).
Definition self_variance_bar : M ModelConfig ndarray := gets (fun m => variance_bar (stats m)).
Definition self_variance_2bar : M ModelConfig ndarray := gets (fun m => variance_2bar (stats m)).
Definition self_dt : M ModelConfig float := inherited domain_config.dt.

(** *** Mean local extrema *)

Definition get_mle_ac : M ModelConfig ndarray :=
  a <- self_variance_2dot ;; b <- self_variance_dot ;;
  q <- lift (np.divide a b) ;;
  let mle_rate_ac := np.div_scalar (np.sqrt q) (2 * np.pi) in
  h <- self_dt ;;
  let c := np.mul_scalar (np.cumsum mle_rate_ac) h in
  modify (with_stats (put_mle_ac c)) ;;; ret c.

Definition get_mle_vel : M ModelConfig ndarray :=
  a <- self_variance_dot ;; b <- self_variance ;;
  q <- lift (np.divide a b) ;;
  let mle_rate_vel := np.div_scalar (np.sqrt q) (2 * np.pi) in
  h <- self_dt ;;
  let c := np.mul_scalar (np.cumsum mle_rate_vel) h in
  modify (with_stats (put_mle_vel c)) ;;; ret c.

Definition get_mle_disp : M ModelConfig ndarray :=
  a <- self_variance ;; b <- self_variance_bar ;;
  q <- lift (np.divide a b) ;;
  let mle_rate_disp := np.div_scalar (np.sqrt q) (2 * np.pi) in
  h <- self_dt ;;
  let c := np.mul_scalar (np.cumsum mle_rate_disp) h in
  modify (with_stats (put_mle_disp c)) ;;; ret c.

(** *** Mean zero crossings *)

Definition get_mzc_ac : M ModelConfig ndarray :=
  a <- self_variance_dot ;; b <- self_variance ;;
  q <- lift (np.divide a b) ;;
  let mzc_rate_ac := np.div_scalar (np.sqrt q) (2 * np.pi) in
  h <- self_dt ;;
  let c := np.mul_scalar (np.cumsum mzc_rate_ac) h in
  modify (with_stats (put_mzc_ac c)) ;;; ret c.

Definition get_mzc_vel : M ModelConfig ndarray :=
  a <- self_variance ;; b <- self_variance_bar ;;
  q <- lift (np.divide a b) ;;
  let mzc_rate_vel := np.div_scalar (np.sqrt q) (2 * np.pi) in
  h <- self_dt ;;
  let c := np.mul_scalar (np.cumsum mzc_rate_vel) h in
  modify (with_stats (put_mzc_vel c)) ;;; ret c.

Definition get_mzc_disp : M ModelConfig ndarray :=
  a <- self_variance_bar ;; b <- self_variance_2bar ;;
  q <- lift (np.divide a b) ;;
  let mzc_rate_disp := np.div_scalar (np.sqrt q) (2 * np.pi) in
  h <- self_dt ;;
  let c := np.mul_scalar (np.cumsum mzc_rate_disp) h in
  modify (with_stats (put_mzc_disp c)) ;;; ret c.

(** *** Mean positive minima and negative maxima *)

Definition get_pmnm_ac : M ModelConfig ndarray :=
  a <- self_variance_2dot ;; b <- self_variance_dot ;;
  q1 <- lift (np.divide a b) ;;
  a' <- self_variance_dot ;; b' <- self_variance ;;
  q2 <- lift (np.divide a' b') ;;
  d <- lift (np.subtract (np.sqrt q1) (np.sqrt q2)) ;;
  let pmnm_rate_ac := np.div_scalar d (4 * np.pi) in
  h <- self_dt ;;
  let c := np.mul_scalar (np.cumsum pmnm_rate_ac) h in
  modify (with_stats (put_pmnm_ac c)) ;;; ret c.

Definition get_pmnm_vel : M ModelConfig ndarray :=
  a <- self_variance_dot ;; b <- self_variance ;;
  q1 <- lift (np.divide a b) ;;
  a' <- self_variance ;; b' <- self_variance_bar ;;
  q2 <- lift (np.divide a' b') ;;
  d <- lift (np.subtract (np.sqrt q1) (np.sqrt q2)) ;;
  let pmnm_rate_vel := np.div_scalar d (4 * np.pi) in
  h <- self_dt ;;
  let c := np.mul_scalar (np.cumsum pmnm_rate_vel) h in
  modify (with_stats (put_pmnm_vel c)) ;;; ret c.

Definition get_pmnm_disp : M ModelConfig ndarray :=
  a <- self_variance ;; b <- self_variance_bar ;;
  q1 <- lift (np.divide a b) ;;
  a' <- self_variance_bar ;; b' <- self_variance_2bar ;;
  q2 <- lift (np.divide a' b') ;;
  d <- lift (np.subtract (np.sqrt q1) (np.sqrt q2)) ;;
  let pmnm_rate_disp := np.div_scalar d (4 * np.pi) in
  h <- self_dt ;;
  let c := np.mul_scalar (np.cumsum pmnm_rate_disp) h in
  modify (with_stats (put_pmnm_disp c)) ;;; ret c.

(** [get_stats]: the five variance arrays are rebound to what the filter
    engine returns for the current series and frequency axis. *)
Definition get_stats {K : Collaborators} : M ModelConfig unit :=
  a <- wu ;; b <- zu ;; c <- wl ;; d <- zl ;;
  f <- inherited domain_config.freq ;;
  modify (with_stats (put_variances (filter_engine_get_stats a b c d f))).

End model_core.

(** ** stochastic_model.py *)

(** An argument as Python hands it to [simulate]: an int, a float, or None. *)
Inductive pyobj : Type :=
| PyInt (z : Z)
| PyFloat (x : float)
| PyNone.

(** [int(x)]: an int is itself, a finite float is truncated toward zero,
    NaN is a ValueError, an infinity an OverflowError, None a TypeError. *)
Definition py_int (x : pyobj) : result Z :=
  match x with
  | PyInt z => Ok z
  | PyFloat f =>
      match Prim2SF f with
      | S754_zero _ => Ok 0%Z
      | S754_finite s m e =>
          let a := (if (0 <=? e)%Z then Z.pos m * 2 ^ e
                    else Z.pos m / 2 ^ (- e))%Z in
          Ok (if s then (- a)%Z else a)
      | S754_infinity _ => Raise OverflowError
      | S754_nan => Raise ValueError
      end
  | PyNone => Raise TypeError
  end.

Module stochastic_model.

Import domain_config model_config model_core.
Local Open Scope monad_scope.

Section WithCollaborators.

Context {K : Collaborators}.

(** The attributes of a [StochasticModel]: those of the model it extends,
    the generator and seed, and the three ensembles of the last [simulate]
    (absent before the first). *)
Record StochasticModel : Type := {
  model : ModelConfig;
  rng : Generator;
  _seed : option Z;
  ac : option (list ndarray);
  vel : option (list ndarray);
  disp : option (list ndarray)
}.

Definition with_model (m : ModelConfig) (s : StochasticModel) : StochasticModel :=
  {| model := m; rng := rng s; _seed := _seed s; ac := ac s; vel := vel s; disp := disp s |}.
Definition with_rng (g : Generator) (s : StochasticModel) : StochasticModel :=
  {| model := model s; rng := g; _seed := _seed s; ac := ac s; vel := vel s; disp := disp s |}.
Definition with_seed (v : option Z) (s : StochasticModel) : StochasticModel :=
  {| model := model s; rng := rng s; _seed := v; ac := ac s; vel := vel s; disp := disp s |}.
Definition with_ac (v : list ndarray) (s : StochasticModel) : StochasticModel :=
  {| model := model s; rng := rng s; _seed := _seed s; ac := Some v; vel := vel s;
     disp := disp s |}.
Definition with_vel (v : list ndarray) (s : StochasticModel) : StochasticModel :=
  {| model := model s; rng := rng s; _seed := _seed s; ac := ac s; vel := Some v;
     disp := disp s |}.
Definition with_disp (v : list ndarray) (s : StochasticModel) : StochasticModel :=
  {| model := model s; rng := rng s; _seed := _seed s; ac := ac s; vel := vel s;
     disp := Some v |}.

Definition on_model {A} (c : M ModelConfig A) : M StochasticModel A := zoom model with_model c.

(** [__init__]: the model's constructor, then a generator seeded by the
    operating system ([entropy] stands for what it supplies) and no seed. *)
Definition __init__ (npts : Z) (dt : float)
    (mdl_func wu_func zu_func wl_func zl_func : shape_func) (entropy : Generator)
  : result StochasticModel :=
  match model_config.__init__ npts dt mdl_func wu_func zu_func wl_func zl_func with
  | Raise e => Raise e
  | Ok m => Ok {| model := m; rng := entropy; _seed := None;
                  ac := None; vel := None; disp := None |}
  end.

Definition seed : M StochasticModel (option Z) := gets _seed.

(** The seed setter: the value is stored, then the generator is replaced;
    numpy refuses a negative seed. *)
Definition set_seed (value : Z) : M StochasticModel unit :=
  modify (with_seed (Some value)) ;;;
  (if (value <? 0)%Z then lift (Raise ValueError)
   else modify (with_rng (default_rng value))).

(** [k] draws in a row, and [n] rows of [k], in stream order. *)
Fixpoint draw_row (k : nat) (g : Generator) : ndarray * Generator :=
  match k with
  | O => ([], g)
  | S k' => let (x, g1) := next_normal g in
            let (r, g2) := draw_row k' g1 in (x :: r, g2)
  end.

Fixpoint draw_rows (n k : nat) (g : Generator) : list ndarray * Generator :=
  match n with
  | O => ([], g)
  | S n' => let (r, g1) := draw_row k g in
            let (rs, g2) := draw_rows n' k g1 in (r :: rs, g2)
  end.

(** [self.rng.standard_normal((n, npts))]: a negative dimension is a
    ValueError; otherwise the stream advances by [n * npts] draws. *)
Definition standard_normal (n npts : Z) : M StochasticModel (list ndarray) :=
  if ((n <? 0) || (npts <? 0))%Z then lift (Raise ValueError)
  else
    g <- gets rng ;;
    let (w, g') := draw_rows (Z.to_nat n) (Z.to_nat npts) g in
    modify (with_rng g') ;;; ret w.

(** [irfft(x, workers=-1)[..., :npts]] on a batch whose rows have [cols]
    bins: the output length [2 * (cols - 1)] must be at least 1, whatever
    the number of rows. *)
Definition irfft_truncated (cols : nat) (npts : Z) (x : list (list complex))
  : result (list ndarray) :=
  if (2 * (cols - 1) <? 1)%nat then Raise ValueError
  else Ok (map (fun row => firstn (Z.to_nat npts) (irfft_row row)) x).

(** Modelled from the spec: the [stats] attribute [simulate] reads first is
    not among the sources.  The spec gives it as "ensure statistics are
    current (recompute if stale)"; it is taken as a call of [get_stats]. *)
Definition stats_current : M ModelConfig unit := get_stats.

(** [fourier[..., 1:] / (1j * self.freq_sim[1:])], one row. *)
Definition velocity_spectrum (freq_sim : ndarray) (row : list complex) : list complex :=
  map (fun cw => c_div (fst cw) (c_j_times (snd cw))) (combine (tl row) (tl freq_sim)).

(** [-fourier[..., 1:] / (self.freq_sim[1:] ** 2)], one row. *)
Definition displacement_spectrum (freq_sim : ndarray) (row : list complex)
  : list complex :=
  map (fun cw => c_div (c_neg (fst cw)) (c_of_real (snd cw * snd cw)%float))
      (combine (tl row) (tl freq_sim)).

Definition simulate (n : pyobj) : M StochasticModel unit :=
  on_model stats_current ;;;
  n <- lift (py_int n) ;;
  npts <- on_model (inherited domain_config.npts) ;;
  white_noise <- standard_normal n npts ;;
  t <- on_model (inherited domain_config.t) ;;
  freq_sim <- on_model (inherited domain_config.freq_sim) ;;
  mdl <- on_model mdl ;; wu <- on_model wu ;; zu <- on_model zu ;;
  wl <- on_model wl ;; zl <- on_model zl ;;
  variance <- on_model self_variance ;;
  let fourier :=
    map (simulate_fourier_series_row npts t freq_sim mdl wu zu wl zl variance)
        white_noise in
  a <- lift (irfft_truncated (length freq_sim) npts fourier) ;;
  modify (with_ac a) ;;;
  v <- lift (irfft_truncated (length freq_sim - 1) npts
               (map (velocity_spectrum freq_sim) fourier)) ;;
  modify (with_vel v) ;;;
  d <- lift (irfft_truncated (length freq_sim - 1) npts
               (map (displacement_spectrum freq_sim) fourier)) ;;
  modify (with_disp d).

(** The three ensembles a simulator holds. *)
Definition ensembles (s : StochasticModel)
  : option (list ndarray) * option (list ndarray) * option (list ndarray) :=
  (ac s, vel s, disp s).

(** An ensemble of [n] rows, none longer than [npts]. *)
Definition ensemble_of (n : Z) (npts : Z) (e : option (list ndarray))
  : Prop :=
  exists rows, e = Some rows /\ length rows = Z.to_nat n /\
               Forall (fun row => (length row <= Z.to_nat npts)%nat) rows.

End WithCollaborators.

End stochastic_model.

(** ** The spec's account of the extrema statistics *)

(** These definitions follow the words of the specification, sample by
    sample; the theorems below compare them with the array code of
    [model_core]. *)
Module spec.

Import model_config.
Local Open Scope float_scope.

Inductive response : Type := acceleration | velocity | displacement.

(** Sample [i] of an array. *)
Definition sample (a : ndarray) (i : nat) : float := nth i a nan.

(** "acceleration uses variance_2dot/variance_dot; velocity uses
    variance_dot/variance; displacement uses variance/variance_bar". *)
Definition local_extrema_ratio (s : Stats) (r : response) (i : nat) : float :=
  match r with
  | acceleration => sample (variance_2dot s) i / sample (variance_dot s) i
  | velocity => sample (variance_dot s) i / sample (variance s) i
  | displacement => sample (variance s) i / sample (variance_bar s) i
  end.

(** "shifted one derivative order down: acceleration uses
    variance_dot/variance; velocity uses variance/variance_bar; displacement
    uses variance_bar/variance_2bar". *)
Definition zero_crossing_ratio (s : Stats) (r : response) (i : nat) : float :=
  match r with
  | acceleration => sample (variance_dot s) i / sample (variance s) i
  | velocity => sample (variance s) i / sample (variance_bar s) i
  | displacement => sample (variance_bar s) i / sample (variance_2bar s) i
  end.

(** "sqrt(moment_ratio) / (2 pi)". *)
Definition mean_rate (ratio : float) : float := sqrt ratio / (2 * np.pi).

(** "(sqrt(ratio_a) - sqrt(ratio_b)) / (4 pi)", unclamped. *)
Definition pmnm_rate (ratio_a ratio_b : float) : float :=
  (sqrt ratio_a - sqrt ratio_b) / (4 * np.pi).

(** "a running sum scaled by dt (rectangle-rule integration from t=0)". *)
Fixpoint running_sum (rate : nat -> float) (k : nat) : float :=
  match k with
  | O => rate O
  | S k' => running_sum rate k' + rate k
  end.

Definition cumulative (dt : float) (rate : nat -> float) (k : nat) : float :=
  running_sum rate k * dt.

(** The variance arrays have been computed for [n] samples. *)
Definition computed (n : nat) (s : Stats) : Prop :=
  length (variance s) = n /\ length (variance_dot s) = n /\
  length (variance_2dot s) = n /\ length (variance_bar s) = n /\
  length (variance_2bar s) = n.

End spec.

(** The three families of [model_core], by response type. *)
Definition get_mle (r : spec.response) : M model_config.ModelConfig ndarray :=
  match r with
  | spec.acceleration => model_core.get_mle_ac
  | spec.velocity => model_core.get_mle_vel
  | spec.displacement => model_core.get_mle_disp
  end.

Definition get_mzc (r : spec.response) : M model_config.ModelConfig ndarray :=
  match r with
  | spec.acceleration => model_core.get_mzc_ac
  | spec.velocity => model_core.get_mzc_vel
  | spec.displacement => model_core.get_mzc_disp
  end.

Definition get_pmnm (r : spec.response) : M model_config.ModelConfig ndarray :=
  match r with
  | spec.acceleration => model_core.get_pmnm_ac
  | spec.velocity => model_core.get_pmnm_vel
  | spec.displacement => model_core.get_pmnm_disp
  end.

(** A method call returns [c]: its result, whatever state it leaves. *)
Definition returns {S A} (c : M S A) (s : S) (a : A) : Prop := fst (c s) = Ok a.

(** Entry [k] of the accumulation started at [acc] adds the first [k + 1]
    inputs to [acc], left to right. *)
Fixpoint sum_onto (acc : float) (rate : nat -> float) (k : nat) : float :=
  match k with
  | O => (acc + rate O)%float
  | S k' => (sum_onto acc rate k' + rate k)%float
  end.

(** A cumulative curve [c] of length [n] carries every non-finite value of
    its raw rate forward: once the rate is non-finite at a sample, the curve
    is non-finite there and at every later sample. *)
Definition carries_nonfinite (n : nat) (rate : nat -> float) (c : ndarray) : Prop :=
  length c = n /\
  forall i k, (i <= k)%nat -> (k < n)%nat ->
    np.isfinite (rate i) = false -> np.isfinite (nth k c nan) = false.

(** ** Sequences of operations *)

(** The public operations on a grid and on a model, and what a caller sees
    when it performs a sequence of them, going on after an exception with
    the object as the failed call left it. *)
Module ops.

Import domain_config model_config.
Local Open Scope monad_scope.

Inductive grid_op : Type :=
| assign_npts (num_points : Z)
| assign_dt (time_step : float)
| read_t
| read_freq
| read_freq_sim
| read_freq_mask
| assign_freq_mask (target_range : float * float).

Definition grid_step (o : grid_op) : M DomainConfig unit :=
  match o with
  | assign_npts n => set_npts n
  | assign_dt h => set_dt h
  | read_t => domain_config.t ;;; ret tt
  | read_freq => freq ;;; ret tt
  | read_freq_sim => freq_sim ;;; ret tt
  | read_freq_mask => freq_mask ;;; ret tt
  | assign_freq_mask r => set_freq_mask r
  end.

Fixpoint run_grid (os : list grid_op) (g : DomainConfig) : DomainConfig :=
  match os with
  | [] => g
  | o :: os' => run_grid os' (snd (grid_step o g))
  end.

(** The five quantities of the model. *)
Inductive quantity : Type := q_mdl | q_wu | q_zu | q_wl | q_zl.

Definition quantity_eqb (a b : quantity) : bool :=
  match a, b with
  | q_mdl, q_mdl | q_wu, q_wu | q_zu, q_zu | q_wl, q_wl | q_zl, q_zl => true
  | _, _ => false
  end.

(** The stored series of a quantity. *)
Definition stored (q : quantity) (m : ModelConfig) : ndarray :=
  match q with
  | q_mdl => _mdl (series m)
  | q_wu => _wu (series m)
  | q_zu => _zu (series m)
  | q_wl => _wl (series m)
  | q_zl => _zl (series m)
  end.

(** The setter and the getter of a quantity. *)
Definition assign (q : quantity) (ps : list float) : M ModelConfig unit :=
  match q with
  | q_mdl => set_mdl ps
  | q_wu => set_wu ps
  | q_zu => set_zu ps
  | q_wl => set_wl ps
  | q_zl => set_zl ps
  end.

Definition read (q : quantity) : M ModelConfig ndarray :=
  match q with
  | q_mdl => mdl
  | q_wu => wu
  | q_zu => zu
  | q_wl => wl
  | q_zl => zl
  end.

Inductive family : Type := mle | mzc | pmnm.

Inductive model_op : Type :=
| on_grid (o : grid_op)
| assign_quantity (q : quantity) (ps : list float)
| read_quantity (q : quantity)
| compute_rate (f : family) (r : spec.response).

(** The method of [model_core] for a family and a response type, and the
    attribute it assigns. *)
Definition get_curve (f : family) (r : spec.response) : M ModelConfig ndarray :=
  match f with
  | mle => get_mle r
  | mzc => get_mzc r
  | pmnm => get_pmnm r
  end.

Definition put_curve (f : family) (r : spec.response) : ndarray -> Stats -> Stats :=
  match f, r with
  | mle, spec.acceleration => model_core.put_mle_ac
  | mle, spec.velocity => model_core.put_mle_vel
  | mle, spec.displacement => model_core.put_mle_disp
  | mzc, spec.acceleration => model_core.put_mzc_ac
  | mzc, spec.velocity => model_core.put_mzc_vel
  | mzc, spec.displacement => model_core.put_mzc_disp
  | pmnm, spec.acceleration => model_core.put_pmnm_ac
  | pmnm, spec.velocity => model_core.put_pmnm_vel
  | pmnm, spec.displacement => model_core.put_pmnm_disp
  end.

Definition step (o : model_op) : M ModelConfig unit :=
  match o with
  | on_grid o' => inherited (grid_step o')
  | assign_quantity q ps => assign q ps
  | read_quantity q => read q ;;; ret tt
  | compute_rate f r => get_curve f r ;;; ret tt
  end.

Fixpoint run (os : list model_op) (m : ModelConfig) : ModelConfig :=
  match os with
  | [] => m
  | o :: os' => run os' (snd (step o m))
  end.

(** The nine cumulative extrema-rate curves a model holds: three kinds for
    each of three response types. *)
Definition extrema_curves (s : Stats) : list ndarray :=
  [_mle_ac s; _mle_vel s; _mle_disp s;
   _mzc_ac s; _mzc_vel s; _mzc_disp s;
   _pmnm_ac s; _pmnm_vel s; _pmnm_disp s].

(** All the derived statistics: the curves, [ce], [fas] and the five
    variance arrays. *)
Definition derived_statistics (s : Stats) : list ndarray :=
  extrema_curves s ++
  [_ce s; _fas s;
   variance s; variance_dot s; variance_2dot s; variance_bar s; variance_2bar s].

(** Every entry of every array is 0.0. *)
Definition all_zero (l : list ndarray) : Prop :=
  Forall (Forall (fun x => x = 0%float)) l.

(** Every cache of the grid is absent or holds what its helper gives for the
    stored [npts] and [dt]. *)
Definition grid_coherent (g : DomainConfig) : Prop :=
  (forall a, _t g = Some a -> a = signal_analysis.get_time (_npts g) (_dt g)) /\
  (forall a, _freq g = Some a -> a = signal_analysis.get_freq (_npts g) (_dt g)) /\
  (forall a, _freq_sim g = Some a ->
     exists ns, npts_sim (_npts g) = Ok ns /\ a = signal_analysis.get_freq ns (_dt g)) /\
  (forall b, _freq_mask g = Some b ->
     exists r, b = signal_analysis.get_freq_mask
                     (signal_analysis.get_freq (_npts g) (_dt g)) r).

(** The five series and the fifteen statistics that are rows of the array
    allocated by the constructor all have length [n]. *)
Definition rows_have_length (n : nat) (m : ModelConfig) : Prop :=
  Forall (fun a => length a = n)
    ([_mdl (series m); _wu (series m); _zu (series m); _wl (series m); _zl (series m)]
     ++ extrema_curves (stats m)
     ++ [_ce (stats m); variance (stats m); variance_dot (stats m);
         variance_2dot (stats m); variance_bar (stats m); variance_2bar (stats m)]).

(** What an assignment to a quantity does.  Either it returns, and then the
    model is the old one with the time cache filled, the one series and its
    parameters replaced, and the statistics reset; or it raises (in the shape
    function or in the write through [[:]]), and then only the time cache can
    have changed. *)
Definition assigned (q : quantity) (ps : list float) (m m' : ModelConfig) (v : ndarray)
  : Prop :=
  length v = length (stored q m) /\
  m' = {| grid := snd (domain_config.t (grid m));
          funcs := funcs m;
          series := match q with
                    | q_mdl => put_mdl v (series m)
                    | q_wu => put_wu v (series m)
                    | q_zu => put_zu v (series m)
                    | q_wl => put_wl v (series m)
                    | q_zl => put_zl v (series m)
                    end;
          params := match q with
                    | q_mdl => put_mdl_params ps (params m)
                    | q_wu => put_wu_params ps (params m)
                    | q_zu => put_zu_params ps (params m)
                    | q_wl => put_wl_params ps (params m)
                    | q_zl => put_zl_params ps (params m)
                    end;
          stats := reset_stats (stats m) |}.

(** The two properties every operation preserves, and the length of [fas]. *)
Definition model_invariant (n k : nat) (m : ModelConfig) : Prop :=
  grid_coherent (grid m) /\ rows_have_length n m /\ length (_fas (stats m)) = k.

(** [p] is the least power of two that is at least [x]. *)
Definition least_power_of_two_from (x p : Z) : Prop :=
  (exists e, 0 <= e /\ p = 2 ^ e)%Z /\ (x <= p)%Z /\
  (forall e, 0 <= e -> x <= 2 ^ e -> p <= 2 ^ e)%Z.

(** The shape function installed for a quantity. *)
Definition func_of (q : quantity) (f : Funcs) : shape_func :=
  match q with
  | q_mdl => mdl_func f
  | q_wu => wu_func f
  | q_zu => zu_func f
  | q_wl => wl_func f
  | q_zl => zl_func f
  end.

(** A series as its setter stores it: the two frequencies times
    [2 * np.pi], the other three as they are. *)
Definition in_stored_units (q : quantity) (v : ndarray) : ndarray :=
  match q with
  | q_wu | q_wl => np.mul_scalar v (2 * np.pi)
  | q_mdl | q_zu | q_zl => v
  end.

(** The parameter vector recorded for a quantity. *)
Definition recorded (q : quantity) (p : Params) : option (list float) :=
  match q with
  | q_mdl => mdl_params p
  | q_wu => wu_params p
  | q_zu => zu_params p
  | q_wl => wl_params p
  | q_zl => zl_params p
  end.

(** The band the [freq_mask] getter installs, [(0.1, 25.0)] Hz. *)
Definition default_band : float * float := (0x1.999999999999ap-4, 25)%float.

(** The variance arrays as construction and every reset leave them. *)
Definition zeroed (n : nat) (s : Stats) : Prop :=
  variance s = np.zeros n /\ variance_dot s = np.zeros n /\
  variance_2dot s = np.zeros n /\ variance_bar s = np.zeros n /\
  variance_2bar s = np.zeros n.

End ops.

(** The envelope [r] over the time axis [t] is exactly zero, and finite, at
    every sample whose time is [0] or [tn]. *)
Definition zero_at_endpoints (t : ndarray) (tn : float) (r : ndarray) : Prop :=
  length r = length t /\
  forall i x, nth_error t i = Some x -> x = 0%float \/ x = tn ->
    exists y, nth_error r i = Some y /\ np.is_zero y = true /\ np.isfinite y = true.

(** ** motion_model.py *)

(** The signal metrics and filters [Motion] calls, whose source is
    elsewhere, and the two numpy operations it applies to their results.
    What a metric returns (an array, a matrix, a number) is left as the type
    [value]; every one of them may raise. *)
Class Helpers : Type := {
  value : Type;
  signal_analysis_get_fas : Z -> ndarray -> result value;
  signal_analysis_get_ce : float -> ndarray -> result value;
  signal_analysis_get_mle : ndarray -> result value;
  signal_analysis_get_mzc : ndarray -> result value;
  signal_analysis_get_pmnm : ndarray -> result value;
  signal_analysis_get_pgp : ndarray -> result value;
  (** [get_spectra(dt, ac[None, :], period, zeta)]: sd, sv, sa *)
  signal_analysis_get_spectra :
    float -> ndarray -> ndarray -> float -> result (value * value * value);
  signal_analysis_get_energy_mask :
    float -> ndarray -> (float * float) + list bool -> result (list bool);
  signal_analysis_get_integral : float -> ndarray -> result ndarray;
  signal_processing_moving_average : value -> Z -> result value;
  signal_processing_bandpass_filter : float -> ndarray -> float -> float -> result ndarray;
  signal_processing_resample : float -> float -> ndarray -> result (Z * float * ndarray);
  (** [x[..., mask]] *)
  index_last_axis : value -> list bool -> result value;
  (** [np.arange(start, stop, step)] *)
  np_arange : float -> float -> float -> result ndarray
}.

Module motion_model.

Import domain_config.
Import Stdlib.Strings.String Stdlib.Strings.Ascii.
Local Open Scope monad_scope.

(** [str.lower] on an ASCII string. *)
Definition lower_ascii (c : ascii) : ascii :=
  let n := nat_of_ascii c in
  if (Nat.leb 65 n && Nat.leb n 90)%bool then ascii_of_nat (n + 32) else c.

Fixpoint lower (s : string) : string :=
  match s with
  | EmptyString => EmptyString
  | String c s' => String (lower_ascii c) (lower s')
  end.

(** The names [_reset_attributes] sets to None, but for [_energy_mask],
    which holds a boolean array and is kept apart. *)
Inductive attr : Type :=
| _fas
| _fas_star
| _ce
| _mle_ac
| _mle_vel
| _mle_disp
| _mzc_ac
| _mzc_vel
| _mzc_disp
| _pmnm_ac
| _pmnm_vel
| _pmnm_disp
| _sd
| _sv
| _sa
| _pga
| _pgv
| _pgd.

Definition attr_eqb (a b : attr) : bool :=
  match a, b with
  | _fas, _fas
  | _fas_star, _fas_star
  | _ce, _ce
  | _mle_ac, _mle_ac
  | _mle_vel, _mle_vel
  | _mle_disp, _mle_disp
  | _mzc_ac, _mzc_ac
  | _mzc_vel, _mzc_vel
  | _mzc_disp, _mzc_disp
  | _pmnm_ac, _pmnm_ac
  | _pmnm_vel, _pmnm_vel
  | _pmnm_disp, _pmnm_disp
  | _sd, _sd
  | _sv, _sv
  | _sa, _sa
  | _pga, _pga
  | _pgv, _pgv
  | _pgd, _pgd => true
  | _, _ => false
  end.

(** [mask.sum()] and [x[mask]] for a boolean array [mask]. *)
Definition mask_sum (mask : list bool) : Z :=
  Z.of_nat (List.length (filter (fun b => b) mask)).

Fixpoint select (x : ndarray) (mask : list bool) : ndarray :=
  match x, mask with
  | v :: x', b :: mask' => if b then v :: select x' mask' else select x' mask'
  | _, _ => []
  end.

Definition boolean_index (x : ndarray) (mask : list bool) : result ndarray :=
  if Nat.eqb (List.length mask) (List.length x) then Ok (select x mask)
  else Raise IndexError.

Section WithHelpers.

Context {H : Helpers}.

(** The attributes of a [Motion]: those of its grid, the three signals, the
    derived attributes by name, and the energy mask. *)
Record Motion : Type := {
  grid : DomainConfig;
  ac : ndarray;
  vel : ndarray;
  disp : ndarray;
  derived : attr -> option value;
  _energy_mask : option (list bool)
}.

Definition with_grid (g : DomainConfig) (m : Motion) : Motion :=
  {| grid := g; ac := ac m; vel := vel m; disp := disp m; derived := derived m;
     _energy_mask := _energy_mask m |}.
Definition with_ac (x : ndarray) (m : Motion) : Motion :=
  {| grid := grid m; ac := x; vel := vel m; disp := disp m; derived := derived m;
     _energy_mask := _energy_mask m |}.
Definition with_vel (x : ndarray) (m : Motion) : Motion :=
  {| grid := grid m; ac := ac m; vel := x; disp := disp m; derived := derived m;
     _energy_mask := _energy_mask m |}.
Definition with_disp (x : ndarray) (m : Motion) : Motion :=
  {| grid := grid m; ac := ac m; vel := vel m; disp := x; derived := derived m;
     _energy_mask := _energy_mask m |}.
Definition with_energy_mask (b : option (list bool)) (m : Motion) : Motion :=
  {| grid := grid m; ac := ac m; vel := vel m; disp := disp m; derived := derived m;
     _energy_mask := b |}.

(** [setattr(self, a, v)] for a derived attribute. *)
Definition put (a : attr) (v : option value) (m : Motion) : Motion :=
  {| grid := grid m; ac := ac m; vel := vel m; disp := disp m;
     derived := fun b => if attr_eqb a b then v else derived m b;
     _energy_mask := _energy_mask m |}.

Definition inherited {A} (c : M DomainConfig A) : M Motion A := zoom grid with_grid c.

(** [_reset_attributes]: every derived attribute and the energy mask to
    None. *)
Definition _reset_attributes : M Motion unit :=
  modify (fun m => {| grid := grid m; ac := ac m; vel := vel m; disp := disp m;
                      derived := fun _ => None; _energy_mask := None |}).

Definition __init__ (npts : Z) (dt : float) (ac vel disp : ndarray) : result Motion :=
  match domain_config.__init__ npts dt with
  | Raise e => Raise e
  | Ok g => Ok {| grid := g; ac := ac; vel := vel; disp := disp;
                  derived := fun _ => None; _energy_mask := None |}
  end.

(** The period axis of the grid: the [tp] setter and the getter that
    installs the default range through it. *)
Definition with_tp (v : option ndarray) (d : DomainConfig) : DomainConfig :=
  {| _npts := _npts d; _dt := _dt d; _t := _t d; _freq := _freq d;
     _freq_sim := _freq_sim d; _freq_sim_p2 := _freq_sim_p2 d;
     _freq_mask := _freq_mask d; _tp := v; _freq_p2 := _freq_p2 d;
     _freq_p4 := _freq_p4 d; _freq_n2 := _freq_n2 d; _freq_n4 := _freq_n4 d |}.

Definition set_tp (period_range : float * float * float) : M DomainConfig unit :=
  let '(start, stop, step) := period_range in
  a <- lift (np_arange start stop step) ;;
  modify (with_tp (Some a)).

(** The default period range, [(0.04, 10.04, 0.01)] seconds. *)
Definition default_periods : float * float * float :=
  (0x1.47ae147ae147bp-5, 0x1.4147ae147ae14p+3, 0x1.47ae147ae147bp-7)%float.

Definition tp : M DomainConfig ndarray :=
  c <- gets _tp ;;
  match c with
  | Some a => ret a
  | None =>
      set_tp default_periods ;;;
      c' <- gets _tp ;;
      match c' with
      | Some a => ret a
      | None => ret []
      end
  end.

(** The pattern of every lazy property: serve the attribute when it is set,
    otherwise compute it, set it and serve it. *)
Definition lazily (a : attr) (compute : M Motion value) : M Motion value :=
  c <- gets (fun m => derived m a) ;;
  match c with
  | Some v => ret v
  | None => v <- compute ;; modify (put a (Some v)) ;;; ret v
  end.

Definition self_npts : M Motion Z := inherited domain_config.npts.
Definition self_dt : M Motion float := inherited domain_config.dt.

Definition fas : M Motion value :=
  lazily _fas (n <- self_npts ;; x <- gets ac ;; lift (signal_analysis_get_fas n x)).

Definition fas_star : M Motion value :=
  lazily _fas_star
    (f <- fas ;;
     a <- lift (signal_processing_moving_average f 9) ;;
     k <- inherited domain_config.freq_mask ;;
     lift (index_last_axis a k)).

Definition ce : M Motion value :=
  lazily _ce (h <- self_dt ;; x <- gets ac ;; lift (signal_analysis_get_ce h x)).

Definition mle_ac : M Motion value :=
  lazily _mle_ac (x <- gets ac ;; lift (signal_analysis_get_mle x)).
Definition mle_vel : M Motion value :=
  lazily _mle_vel (x <- gets vel ;; lift (signal_analysis_get_mle x)).
Definition mle_disp : M Motion value :=
  lazily _mle_disp (x <- gets disp ;; lift (signal_analysis_get_mle x)).

Definition mzc_ac : M Motion value :=
  lazily _mzc_ac (x <- gets ac ;; lift (signal_analysis_get_mzc x)).
Definition mzc_vel : M Motion value :=
  lazily _mzc_vel (x <- gets vel ;; lift (signal_analysis_get_mzc x)).
Definition mzc_disp : M Motion value :=
  lazily _mzc_disp (x <- gets disp ;; lift (signal_analysis_get_mzc x)).

Definition pmnm_ac : M Motion value :=
  lazily _pmnm_ac (x <- gets ac ;; lift (signal_analysis_get_pmnm x)).
Definition pmnm_vel : M Motion value :=
  lazily _pmnm_vel (x <- gets vel ;; lift (signal_analysis_get_pmnm x)).
Definition pmnm_disp : M Motion value :=
  lazily _pmnm_disp (x <- gets disp ;; lift (signal_analysis_get_pmnm x)).

(** The three response spectra come from one call, which sets all three
    attributes; each property makes it when its own attribute is unset. *)
Definition get_spectra : M Motion (value * value * value) :=
  h <- self_dt ;; x <- gets ac ;; p <- inherited tp ;;
  r <- lift (signal_analysis_get_spectra h x p 0x1.999999999999ap-5) ;;
  let '(d, v, a) := r in
  modify (put _sd (Some d)) ;;; modify (put _sv (Some v)) ;;; modify (put _sa (Some a)) ;;;
  ret r.

Definition sa : M Motion value :=
  c <- gets (fun m => derived m _sa) ;;
  match c with
  | Some v => ret v
  | None => r <- get_spectra ;; ret (snd r)
  end.

Definition sv : M Motion value :=
  c <- gets (fun m => derived m _sv) ;;
  match c with
  | Some v => ret v
  | None => r <- get_spectra ;; ret (snd (fst r))
  end.

Definition sd : M Motion value :=
  c <- gets (fun m => derived m _sd) ;;
  match c with
  | Some v => ret v
  | None => r <- get_spectra ;; ret (fst (fst r))
  end.

Definition pga : M Motion value :=
  lazily _pga (x <- gets ac ;; lift (signal_analysis_get_pgp x)).
Definition pgv : M Motion value :=
  lazily _pgv (x <- gets vel ;; lift (signal_analysis_get_pgp x)).
Definition pgd : M Motion value :=
  lazily _pgd (x <- gets disp ;; lift (signal_analysis_get_pgp x)).

(** The default energy range, [(0.001, 0.999)]. *)
Definition default_energy_range : float * float :=
  (0x1.0624dd2f1a9fcp-10, 0x1.ff7ced916872bp-1)%float.

Definition set_energy_mask (target_range : (float * float) + list bool) : M Motion unit :=
  h <- self_dt ;; x <- gets ac ;;
  b <- lift (signal_analysis_get_energy_mask h x target_range) ;;
  modify (with_energy_mask (Some b)).

Definition energy_mask : M Motion (list bool) :=
  c <- gets _energy_mask ;;
  match c with
  | Some b => ret b
  | None =>
      h <- self_dt ;; x <- gets ac ;;
      b <- lift (signal_analysis_get_energy_mask h x (inl default_energy_range)) ;;
      modify (with_energy_mask (Some b)) ;;; ret b
  end.

(** How a call of [set_range] ends: it returns, it raises one of the
    exceptions above, or it raises the AttributeError of a tuple that is
    asked for its [sum]. *)
Inductive outcome : Type :=
| returned
| raised (e : exn)
| attribute_error.

Definition outcome_of (r : result unit) : outcome :=
  match r with Ok _ => returned | Raise e => raised e end.

(** The part of [set_range] after the mask is chosen. *)
Definition apply_mask (mask : list bool) : M Motion unit :=
  inherited (set_npts (mask_sum mask)) ;;;
  a <- gets ac ;; a' <- lift (boolean_index a mask) ;; modify (with_ac a') ;;;
  v <- gets vel ;; v' <- lift (boolean_index v mask) ;; modify (with_vel v') ;;;
  d <- gets disp ;; d' <- lift (boolean_index d mask) ;; modify (with_disp d') ;;;
  _reset_attributes.

Definition set_range (option : string) (range_slice : (float * float) + list bool)
  : Motion -> outcome * Motion :=
  fun m =>
    if String.eqb (lower option) "energy" then
      let (r, m') := (set_energy_mask range_slice ;;;
                      mask <- energy_mask ;; apply_mask mask) m in
      (outcome_of r, m')
    else if String.eqb (lower option) "mask" then
      match range_slice with
      | inr mask => let (r, m') := apply_mask mask m in (outcome_of r, m')
      | inl _ => (attribute_error, m)
      end
    else (raised ValueError, m).

(** [filter(bandpass_freqs)]. *)
Definition filter (bandpass_freqs : float * float) : M Motion unit :=
  h <- self_dt ;; a <- gets ac ;;
  a' <- lift (signal_processing_bandpass_filter h a (fst bandpass_freqs)
                (snd bandpass_freqs)) ;;
  modify (with_ac a') ;;;
  h <- self_dt ;; a <- gets ac ;;
  v' <- lift (signal_analysis_get_integral h a) ;; modify (with_vel v') ;;;
  h <- self_dt ;; v <- gets vel ;;
  d' <- lift (signal_analysis_get_integral h v) ;; modify (with_disp d') ;;;
  _reset_attributes.

(** [resample(dt_new)]. *)
Definition resample (dt_new : float) : M Motion unit :=
  h <- self_dt ;; a <- gets ac ;;
  r <- lift (signal_processing_resample h dt_new a) ;;
  let '(n', h', a') := r in
  inherited (set_npts n') ;;; inherited (set_dt h') ;;; modify (with_ac a') ;;;
  a <- gets ac ;;
  v' <- lift (signal_analysis_get_integral dt_new a) ;; modify (with_vel v') ;;;
  v <- gets vel ;;
  d' <- lift (signal_analysis_get_integral dt_new v) ;; modify (with_disp d') ;;;
  _reset_attributes.

(** The property that serves a derived attribute. *)
Definition read (a : attr) : M Motion value :=
  match a with
  | _fas => fas
  | _fas_star => fas_star
  | _ce => ce
  | _mle_ac => mle_ac
  | _mle_vel => mle_vel
  | _mle_disp => mle_disp
  | _mzc_ac => mzc_ac
  | _mzc_vel => mzc_vel
  | _mzc_disp => mzc_disp
  | _pmnm_ac => pmnm_ac
  | _pmnm_vel => pmnm_vel
  | _pmnm_disp => pmnm_disp
  | _sd => sd
  | _sv => sv
  | _sa => sa
  | _pga => pga
  | _pgv => pgv
  | _pgd => pgd
  end.

(** [c then k] on results, outside any object. *)
Definition and_then {A B} (r : result A) (k : A -> result B) : result B :=
  match r with Ok a => k a | Raise e => Raise e end.

(** What the helpers give for a derived attribute on the signals, the
    [npts] and the [dt] a motion holds now, with the default frequency band
    and the default period range. *)
Definition current_spectra (m : Motion) : result (value * value * value) :=
  let '(start, stop, step) := default_periods in
  and_then (np_arange start stop step)
    (fun p => signal_analysis_get_spectra (_dt (grid m)) (ac m) p 0x1.999999999999ap-5).

Definition current (a : attr) (m : Motion) : result value :=
  match a with
  | _fas => signal_analysis_get_fas (_npts (grid m)) (ac m)
  | _fas_star =>
      and_then (signal_analysis_get_fas (_npts (grid m)) (ac m)) (fun f =>
      and_then (signal_processing_moving_average f 9) (fun x =>
      index_last_axis x
        (signal_analysis.get_freq_mask
           (signal_analysis.get_freq (_npts (grid m)) (_dt (grid m)))
           ops.default_band)))
  | _ce => signal_analysis_get_ce (_dt (grid m)) (ac m)
  | _mle_ac => signal_analysis_get_mle (ac m)
  | _mle_vel => signal_analysis_get_mle (vel m)
  | _mle_disp => signal_analysis_get_mle (disp m)
  | _mzc_ac => signal_analysis_get_mzc (ac m)
  | _mzc_vel => signal_analysis_get_mzc (vel m)
  | _mzc_disp => signal_analysis_get_mzc (disp m)
  | _pmnm_ac => signal_analysis_get_pmnm (ac m)
  | _pmnm_vel => signal_analysis_get_pmnm (vel m)
  | _pmnm_disp => signal_analysis_get_pmnm (disp m)
  | _sd => and_then (current_spectra m) (fun r => Ok (fst (fst r)))
  | _sv => and_then (current_spectra m) (fun r => Ok (snd (fst r)))
  | _sa => and_then (current_spectra m) (fun r => Ok (snd r))
  | _pga => signal_analysis_get_pgp (ac m)
  | _pgv => signal_analysis_get_pgp (vel m)
  | _pgd => signal_analysis_get_pgp (disp m)
  end.

(** The grid of a motion whose band and period range were never assigned:
    its caches are coherent, the mask is that of the default band and the
    period axis that of the default range. *)
Definition grid_at_defaults (g : DomainConfig) : Prop :=
  ops.grid_coherent g /\
  (forall b, _freq_mask g = Some b ->
     b = signal_analysis.get_freq_mask
           (signal_analysis.get_freq (_npts g) (_dt g)) ops.default_band) /\
  (forall p, _tp g = Some p ->
     let '(start, stop, step) := default_periods in np_arange start stop step = Ok p).

(** No derived attribute of the motion is stale. *)
Definition up_to_date (m : Motion) : Prop :=
  grid_at_defaults (grid m) /\
  (forall a v, derived m a = Some v -> current a m = Ok v) /\
  (forall b, _energy_mask m = Some b ->
     exists r, signal_analysis_get_energy_mask (_dt (grid m)) (ac m) r = Ok b).

(** The operations of a motion that go through its own methods: the three
    that change the signals, the energy-mask setter, and the reads. *)
Inductive motion_op : Type :=
| call_set_range (option : string) (range_slice : (float * float) + list bool)
| call_filter (bandpass_freqs : float * float)
| call_resample (dt_new : float)
| assign_energy_mask (target_range : (float * float) + list bool)
| read_attr (a : attr)
| read_energy_mask
| read_tp
| read_grid_t
| read_grid_freq
| read_grid_freq_sim
| read_grid_freq_mask.

Definition step (o : motion_op) : Motion -> outcome * Motion :=
  fun m =>
    let run {A} (c : M Motion A) :=
      let (r, m') := c m in
      (match r with Ok _ => returned | Raise e => raised e end, m') in
    match o with
    | call_set_range option range_slice => set_range option range_slice m
    | call_filter f => run (filter f)
    | call_resample h => run (resample h)
    | assign_energy_mask r => run (set_energy_mask r)
    | read_attr a => run (read a)
    | read_energy_mask => run energy_mask
    | read_tp => run (inherited tp)
    | read_grid_t => run (inherited domain_config.t)
    | read_grid_freq => run (inherited domain_config.freq)
    | read_grid_freq_sim => run (inherited domain_config.freq_sim)
    | read_grid_freq_mask => run (inherited domain_config.freq_mask)
    end.

(** The three operations that replace the signals. *)
Definition replaces_signals (o : motion_op) : bool :=
  match o with
  | call_set_range _ _ | call_filter _ | call_resample _ => true
  | _ => false
  end.

Fixpoint run (os : list motion_op) (m : Motion) : Motion :=
  match os with
  | [] => m
  | o :: os' => run os' (snd (step o m))
  end.

(** Along the sequence, every call that replaces the signals returns or
    raises before it has replaced any (so leaves the object as it was). *)
Fixpoint undisturbed (os : list motion_op) (m : Motion) : Prop :=
  match os with
  | [] => True
  | o :: os' =>
      (replaces_signals o = true ->
       fst (step o m) = returned \/ snd (step o m) = m) /\
      undisturbed os' (snd (step o m))
  end.

(** What a derived attribute is computed from. *)
Definition signals (m : Motion) : Z * float * ndarray * ndarray * ndarray :=
  (_npts (grid m), _dt (grid m), ac m, vel m, disp m).

(** A method run from [m] keeps the motion up to date and its signals, and
    what it returns satisfies [Q]. *)
Definition sound_at {A} (c : M Motion A) (m : Motion) (Q : A -> Prop) : Prop :=
  up_to_date (snd (c m)) /\ signals (snd (c m)) = signals m /\
  forall v, fst (c m) = Ok v -> Q v.

(** [m'] as [_reset_attributes] leaves a motion whose grid was [grid m] or
    was reset. *)
Definition cleared (m m' : Motion) : Prop :=
  (forall a, derived m' a = None) /\ _energy_mask m' = None /\
  (grid m' = grid m \/ _reset_cache (grid m') = grid m').

(** The three attributes one call of [get_spectra] sets. *)
Definition spectral (a : attr) : bool :=
  match a with
  | _sd | _sv | _sa => true
  | _ => false
  end.

End WithHelpers.

End motion_model.

(** ** Concrete instances *)

Module examples.

Import domain_config model_config.

(** Stand-ins for the signal metrics and filters of [Motion], for
    evaluating its methods on concrete inputs: the cumulative energy and
    the integral are running sums, the other metrics hand the signal back,
    and the energy mask keeps every sample.  The theorems on [Motion] hold
    for every instance. *)
#[local] Instance plain : Helpers := {|
  value := ndarray;
  signal_analysis_get_fas := fun _ x => Ok x;
  signal_analysis_get_ce := fun h x => Ok (np.cumsum (map (fun v => (v * v * h)%float) x));
  signal_analysis_get_mle := fun x => Ok x;
  signal_analysis_get_mzc := fun x => Ok x;
  signal_analysis_get_pmnm := fun x => Ok x;
  signal_analysis_get_pgp := fun x => Ok x;
  signal_analysis_get_spectra := fun _ x p _ => Ok (p, x, x);
  signal_analysis_get_energy_mask :=
    fun _ x r => match r with
                 | inr b => Ok b
                 | inl _ => Ok (map (fun _ => true) x)
                 end;
  signal_analysis_get_integral := fun h x => Ok (np.cumsum (map (fun v => (v * h)%float) x));
  signal_processing_moving_average := fun v _ => Ok v;
  signal_processing_bandpass_filter := fun _ x _ _ => Ok x;
  signal_processing_resample := fun _ h x => Ok (Z.of_nat (length x), h, x);
  index_last_axis := fun v _ => Ok v;
  np_arange := fun start stop _ => Ok [start; stop]
|}.

(** [parametric_functions.linear] under the calling convention of
    [ModelConfig]: the series alone. *)
Definition linear : shape_func :=
  fun t ps => match parametric_functions.linear t ps with
              | Ok (r, _, _) => Ok r
              | Raise e => Raise e
              end.

(** The model a [result] holds, or [d] when it is an exception. *)
Definition value {A} (d : A) (r : result A) : A :=
  match r with Ok a => a | Raise _ => d end.

Definition empty_model : ModelConfig :=
  {| grid := {| _npts := 0; _dt := 0; _t := None; _freq := None; _freq_sim := None;
                _freq_sim_p2 := None; _freq_mask := None; _tp := None;
                _freq_p2 := None; _freq_p4 := None; _freq_n2 := None; _freq_n4 := None |};
     funcs := {| mdl_func := linear; wu_func := linear; zu_func := linear;
                 wl_func := linear; zl_func := linear |};
     series := {| _mdl := []; _wu := []; _zu := []; _wl := []; _zl := [] |};
     params := {| mdl_params := None; wu_params := None; zu_params := None;
                  wl_params := None; zl_params := None |};
     stats := {| variance := []; variance_dot := []; variance_2dot := [];
                 variance_bar := []; variance_2bar := []; _ce := [];
                 _mle_ac := []; _mle_vel := []; _mle_disp := [];
                 _mzc_ac := []; _mzc_vel := []; _mzc_disp := [];
                 _pmnm_ac := []; _pmnm_vel := []; _pmnm_disp := []; _fas := [] |} |}.

(** [ModelConfig(3, 0.5, linear, linear, linear, linear, linear)]. *)
Definition model3 : ModelConfig :=
  value empty_model (model_config.__init__ 3 0x1p-1 linear linear linear linear linear).

(** [model3] with variance arrays as a filter engine could return them:
    positive at every sample. *)
Definition model3_computed : ModelConfig :=
  with_stats (model_core.put_variances
                ([1; 1; 1], [4; 4; 16], [64; 64; 64],
                 [0x1p-2; 0x1p-2; 0x1p-2], [0x1p-4; 0x1p-6; 0x1p-4])%float) model3.

(** [model3] with variance arrays that vanish at the middle sample only. *)
Definition model3_degenerate : ModelConfig :=
  with_stats (model_core.put_variances
                ([1; 0; 1], [4; 0; 4], [64; 0; 64],
                 [0x1p-2; 0; 0x1p-2], [0x1p-4; 0; 0x1p-4])%float) model3.

(** A small instance for evaluating [simulate] on concrete inputs: pairs
    of floats for complex numbers, a counter for the generator, and rows
    that scale the frequency axis by the first draw.  It stands for no
    numerical library; the theorems hold for every instance. *)
#[local] Instance toy : Collaborators := {|
  complex := float * float;
  c_div := fun a b => ((fst a / (fst b + snd b))%float, (snd a / (fst b + snd b))%float);
  c_neg := fun a => (PrimFloat.opp (fst a), PrimFloat.opp (snd a));
  c_of_real := fun x => (x, 0%float);
  c_j_times := fun x => (0%float, x);
  irfft_row := fun row => map fst row ++ map snd row;
  Generator := Z;
  default_rng := fun seed => seed;
  next_normal := fun g => (float_of_Z (g mod 5), (g + 1)%Z);
  filter_engine_get_stats := fun wu _ _ _ _ => (wu, wu, wu, wu, wu);
  simulate_fourier_series_row := fun _ _ freq_sim _ _ _ _ _ _ white_noise =>
                                   map (fun w => ((hd 0 white_noise * w)%float, w))
                                       freq_sim
|}.

(** [StochasticModel(3, 0.5)] with the five [linear] shape functions, over
    [toy]. *)
Definition simulator3 : stochastic_model.StochasticModel :=
  {| stochastic_model.model := model3;
     stochastic_model.rng := 0%Z;
     stochastic_model._seed := None;
     stochastic_model.ac := None;
     stochastic_model.vel := None;
     stochastic_model.disp := None |}.

(** First-order stand-ins for [exp], [log], the power operator and the Beta
    function, for evaluating the shape functions on concrete inputs; the
    theorems on the envelopes hold for every instance. *)
#[local] Instance coarse_libm : Libm := {|
  exp := fun x => (1 + x)%float;
  log := fun x => (x - 1)%float;
  pow := fun x y => (1 + y * (x - 1))%float;
  beta := fun a b => (1 / (a + b))%float
|}.

(** [Motion(3, 0.5, ac, vel, disp)] over [plain]. *)
Definition motion3 : motion_model.Motion :=
  {| motion_model.grid :=
       {| _npts := 3; _dt := 0x1p-1; _t := None; _freq := None; _freq_sim := None;
          _freq_sim_p2 := None; _freq_mask := None; _tp := None;
          _freq_p2 := None; _freq_p4 := None; _freq_n2 := None; _freq_n4 := None |};
     motion_model.ac := [1; 2; 4]%float;
     motion_model.vel := [0x1p-1; 0x1.8p+0; 0x1.cp+1]%float;
     motion_model.disp := [0x1p-2; 1; 0x1.6p+1]%float;
     motion_model.derived := fun _ => None;
     motion_model._energy_mask := None |}.

End examples.

(** * Properties *)

(** ** Binary64 facts *)

Section Binary64.

Local Open Scope float_scope.

Lemma add_nonfinite_l (x y : float) :
  np.isfinite x = false -> np.isfinite (x + y) = false.
Proof.
  unfold np.isfinite. rewrite add_spec. unfold SF64add, SFadd.
  destruct (Prim2SF x) as [sx | sx | | sx mx ex]; try discriminate;
    destruct (Prim2SF y) as [sy | sy | | sy my ey]; intros _; try reflexivity;
    destruct sx, sy; reflexivity.
Qed.

Lemma add_nonfinite_r (x y : float) :
  np.isfinite y = false -> np.isfinite (x + y) = false.
Proof.
  unfold np.isfinite. rewrite add_spec. unfold SF64add, SFadd.
  destruct (Prim2SF y) as [sy | sy | | sy my ey]; try discriminate;
    destruct (Prim2SF x) as [sx | sx | | sx mx ex]; intros _; try reflexivity;
    destruct sx, sy; reflexivity.
Qed.

Lemma mul_nonfinite_l (x y : float) :
  np.isfinite x = false -> np.isfinite (x * y) = false.
Proof.
  unfold np.isfinite. rewrite mul_spec. unfold SF64mul, SFmul.
  destruct (Prim2SF x) as [sx | sx | | sx mx ex]; try discriminate;
    destruct (Prim2SF y) as [sy | sy | | sy my ey]; intros _; reflexivity.
Qed.

Lemma mul_finite_zero (x : float) :
  np.isfinite x = true -> exists s, Prim2SF (x * 0) = S754_zero s.
Proof.
  unfold np.isfinite. rewrite mul_spec. unfold SF64mul, SFmul.
  change (Prim2SF 0) with (S754_zero false).
  destruct (Prim2SF x) as [sx | sx | | sx mx ex]; try discriminate;
    intros _; eexists; reflexivity.
Qed.

Lemma sqrt_signed_zero (x : float) (s : bool) :
  Prim2SF x = S754_zero s -> Prim2SF (sqrt x) = S754_zero s.
Proof. intros H. rewrite sqrt_spec, H. reflexivity. Qed.

Lemma signed_zero_is_zero (x : float) (s : bool) :
  Prim2SF x = S754_zero s -> np.is_zero x = true /\ np.isfinite x = true.
Proof.
  intros H. unfold np.is_zero, np.isfinite. rewrite eqb_spec, H.
  split; [destruct s |]; reflexivity.
Qed.

End Binary64.

(** ** Arrays *)

Section Arrays.

Lemma length_map2 f (a b : ndarray) :
  length a = length b -> length (np.map2 f a b) = length a.
Proof.
  revert b. induction a as [| x a IH]; intros [| y b] H; simpl in *;
    try discriminate; auto.
Qed.

Lemma nth_map2 f (a b : ndarray) (k : nat) (d : float) :
  length a = length b -> k < length a ->
  nth k (np.map2 f a b) d = f (nth k a d) (nth k b d).
Proof.
  revert b k. induction a as [| x a IH]; intros [| y b] k H Hk; simpl in *;
    try discriminate; try lia.
  destruct k as [| k]; [reflexivity |]. apply IH; lia.
Qed.

Lemma nth_map_lt (f : float -> float) (a : ndarray) (k : nat) (d : float) :
  k < length a -> nth k (map f a) d = f (nth k a d).
Proof.
  intros Hk. rewrite (nth_indep _ d (f d)) by (rewrite length_map; exact Hk).
  apply map_nth.
Qed.

Lemma broadcast2_same_length f (a b : ndarray) :
  length a = length b -> np.broadcast2 f a b = Ok (np.map2 f a b).
Proof. intros H. unfold np.broadcast2. rewrite H, Nat.eqb_refl. reflexivity. Qed.

Lemma length_cumsum_from (acc : float) (a : ndarray) :
  length (np.cumsum_from acc a) = length a.
Proof. revert acc. induction a as [| x a IH]; intros acc; simpl; auto. Qed.

Lemma length_cumsum (a : ndarray) : length (np.cumsum a) = length a.
Proof. destruct a; simpl; [| rewrite length_cumsum_from]; reflexivity. Qed.

Lemma sum_onto_shift (acc : float) (rate : nat -> float) (k : nat) :
  sum_onto (acc + rate O)%float (fun i => rate (S i)) k = sum_onto acc rate (S k).
Proof. induction k as [| k IH]; simpl in *; [| rewrite IH]; reflexivity. Qed.

Lemma nth_cumsum_from (a : ndarray) (acc : float) (k : nat) (d : float) :
  k < length a ->
  nth k (np.cumsum_from acc a) d = sum_onto acc (fun i => nth i a d) k.
Proof.
  revert acc k. induction a as [| x a IH]; intros acc k Hk; simpl in Hk; [lia |].
  destruct k as [| k]; [reflexivity |].
  simpl np.cumsum_from. cbv zeta. simpl nth at 1.
  rewrite IH by lia.
  exact (sum_onto_shift acc (fun i => nth i (x :: a) d) k).
Qed.

Lemma running_sum_shift (rate : nat -> float) (k : nat) :
  sum_onto (rate O) (fun i => rate (S i)) k = spec.running_sum rate (S k).
Proof. induction k as [| k IH]; simpl in *; [| rewrite IH]; reflexivity. Qed.

Lemma nth_cumsum (a : ndarray) (k : nat) (d : float) :
  k < length a ->
  nth k (np.cumsum a) d = spec.running_sum (fun i => nth i a d) k.
Proof.
  destruct a as [| x a]; simpl; intros Hk; [lia |].
  destruct k as [| k]; [reflexivity |].
  rewrite nth_cumsum_from by lia.
  exact (running_sum_shift (fun i => nth i (x :: a) d) k).
Qed.

Lemma running_sum_ext (f g : nat -> float) (k : nat) :
  (forall i, i <= k -> f i = g i) -> spec.running_sum f k = spec.running_sum g k.
Proof.
  induction k as [| k IH]; intros H; simpl.
  - apply H; lia.
  - rewrite IH by (intros; apply H; lia). rewrite (H (S k)) by lia. reflexivity.
Qed.

End Arrays.

(** ** The extrema statistics of [model_core] *)

(** Unfolds one [get_*] method on a state whose variance arrays have equal
    lengths, leaving the array pipeline. *)
Ltac run_rate_method :=
  unfold returns, get_mle, get_mzc, get_pmnm,
    model_core.get_mle_ac, model_core.get_mle_vel, model_core.get_mle_disp,
    model_core.get_mzc_ac, model_core.get_mzc_vel, model_core.get_mzc_disp,
    model_core.get_pmnm_ac, model_core.get_pmnm_vel, model_core.get_pmnm_disp,
    model_core.self_variance, model_core.self_variance_dot,
    model_core.self_variance_2dot, model_core.self_variance_bar,
    model_core.self_variance_2bar, model_core.self_dt,
    model_config.inherited, zoom, domain_config.dt, np.divide, np.subtract,
    bind, gets, lift, modify, ret;
  cbn beta iota;
  repeat (rewrite broadcast2_same_length
            by (unfold np.sqrt; rewrite ?length_map, ?length_map2; congruence);
          cbn beta iota).

Section ExtremaStatistics.

Import model_config model_core.
Local Open Scope float_scope.

(** The array pipeline shared by the six one-ratio curves:
    [np.cumsum(np.sqrt(a / b) / c) * h]. *)
Lemma one_ratio_curve (a b : ndarray) (c h : float) (n : nat) :
  length a = n -> length b = n ->
  let curve := np.mul_scalar (np.cumsum (np.div_scalar (np.sqrt (np.map2 PrimFloat.div a b)) c)) h in
  length curve = n /\
  forall k, (k < n)%nat ->
    nth k curve nan
    = spec.cumulative h (fun i => sqrt (spec.sample a i / spec.sample b i) / c) k.
Proof.
  intros Ha Hb curve. subst curve.
  assert (Hq : length (np.map2 PrimFloat.div a b) = n)
    by (rewrite length_map2; congruence).
  unfold np.mul_scalar, np.div_scalar, np.sqrt. split.
  - rewrite length_map, length_cumsum, !length_map. exact Hq.
  - intros k Hk. unfold spec.cumulative.
    rewrite nth_map_lt by (rewrite length_cumsum, !length_map; lia).
    rewrite nth_cumsum by (rewrite !length_map; lia).
    f_equal. apply running_sum_ext. intros i Hi.
    rewrite !nth_map_lt by (rewrite ?length_map; lia).
    rewrite nth_map2 by lia. reflexivity.
Qed.

(** The pipeline of the three two-ratio curves:
    [np.cumsum((np.sqrt(a / b) - np.sqrt(a' / b')) / c) * h]. *)
Lemma two_ratio_curve (a b a' b' : ndarray) (c h : float) (n : nat) :
  length a = n -> length b = n -> length a' = n -> length b' = n ->
  let d := np.map2 PrimFloat.sub (np.sqrt (np.map2 PrimFloat.div a b))
                                 (np.sqrt (np.map2 PrimFloat.div a' b')) in
  let curve := np.mul_scalar (np.cumsum (np.div_scalar d c)) h in
  length curve = n /\
  forall k, (k < n)%nat ->
    nth k curve nan
    = spec.cumulative h
        (fun i => (sqrt (spec.sample a i / spec.sample b i)
                   - sqrt (spec.sample a' i / spec.sample b' i)) / c) k.
Proof.
  intros Ha Hb Ha' Hb' d curve. subst curve d.
  assert (Hq : length (np.map2 PrimFloat.div a b) = n)
    by (rewrite length_map2; congruence).
  assert (Hq' : length (np.map2 PrimFloat.div a' b') = n)
    by (rewrite length_map2; congruence).
  unfold np.mul_scalar, np.div_scalar, np.sqrt.
  assert (Hd : length (np.map2 PrimFloat.sub (map sqrt (np.map2 PrimFloat.div a b))
                                       (map sqrt (np.map2 PrimFloat.div a' b'))) = n)
    by (rewrite length_map2; rewrite !length_map; congruence).
  split.
  - rewrite length_map, length_cumsum, length_map. exact Hd.
  - intros k Hk. unfold spec.cumulative.
    rewrite nth_map_lt by (rewrite length_cumsum, length_map; lia).
    rewrite nth_cumsum by (rewrite length_map; lia).
    f_equal. apply running_sum_ext. intros i Hi.
    rewrite nth_map_lt by lia.
    rewrite nth_map2 by (rewrite !length_map; lia).
    rewrite !nth_map_lt by lia.
    rewrite !nth_map2 by lia. reflexivity.
Qed.

(** C6.  On every model state whose five variance arrays have been computed
    (all of length [n]), each of the nine cumulative extrema statistics is a
    running sum, scaled by [dt], of the rate the specification states:
    [sqrt(ratio)/(2 pi)] with the local-extrema ratio of the response type
    for [mle], the same with the zero-crossing ratio (one derivative order
    down) for [mzc], and [(sqrt(ratio_a) - sqrt(ratio_b))/(4 pi)] on those two
    ratios for [pmnm], summed as it is, without clamping. *)
Theorem extrema_statistics_are_scaled_running_sums :
  forall (m : ModelConfig) (n : nat) (r : spec.response),
    spec.computed n (stats m) ->
    let s := stats m in
    let dt := domain_config._dt (grid m) in
    (exists c, returns (get_mle r) m c /\ length c = n /\
       forall k, (k < n)%nat ->
         nth k c nan
         = spec.cumulative dt (fun i => spec.mean_rate (spec.local_extrema_ratio s r i)) k)
    /\
    (exists c, returns (get_mzc r) m c /\ length c = n /\
       forall k, (k < n)%nat ->
         nth k c nan
         = spec.cumulative dt (fun i => spec.mean_rate (spec.zero_crossing_ratio s r i)) k)
    /\
    (exists c, returns (get_pmnm r) m c /\ length c = n /\
       forall k, (k < n)%nat ->
         nth k c nan
         = spec.cumulative dt
             (fun i => spec.pmnm_rate (spec.local_extrema_ratio s r i)
                                      (spec.zero_crossing_ratio s r i)) k).
Proof.
  intros m n r (H0 & H1 & H2 & Hb & H2b) s dt. subst s dt.
  repeat split; destruct r; eexists;
    (split; [run_rate_method; reflexivity |]);
    first [ apply one_ratio_curve; assumption
          | apply two_ratio_curve; assumption ].
Qed.

(** The theorem at [model3_computed], three samples, acceleration. *)
Lemma extrema_statistics_witness :
  spec.computed 3 (stats examples.model3_computed) /\
  exists c, returns (get_mle spec.acceleration) examples.model3_computed c /\
            length c = 3%nat.
Proof.
  assert (H : spec.computed 3 (stats examples.model3_computed))
    by (repeat split; reflexivity).
  split; [exact H |].
  destruct (extrema_statistics_are_scaled_running_sums
              examples.model3_computed 3 spec.acceleration H)
    as [[c [Hr [Hl _]]] _].
  exists c. split; assumption.
Defined.

End ExtremaStatistics.

(** ** Degenerate variances *)

Section DegenerateVariances.

Import model_config model_core.
Local Open Scope float_scope.

Lemma running_sum_nonfinite (rate : nat -> float) (i k : nat) :
  (i <= k)%nat -> np.isfinite (rate i) = false ->
  np.isfinite (spec.running_sum rate k) = false.
Proof.
  intros Hik Hi. induction k as [| k IH]; simpl.
  - replace i with O in Hi by lia. exact Hi.
  - destruct (Nat.eq_dec i (S k)) as [-> | Hne].
    + apply add_nonfinite_r. exact Hi.
    + apply add_nonfinite_l. apply IH. lia.
Qed.

Lemma cumulative_nonfinite (h : float) (rate : nat -> float) (i k : nat) :
  (i <= k)%nat -> np.isfinite (rate i) = false ->
  np.isfinite (spec.cumulative h rate k) = false.
Proof.
  intros Hik Hi. unfold spec.cumulative.
  apply mul_nonfinite_l. exact (running_sum_nonfinite rate i k Hik Hi).
Qed.

Lemma carries_from_cumulative (n : nat) (h : float) (rate : nat -> float) (c : ndarray) :
  length c = n ->
  (forall k, (k < n)%nat -> nth k c nan = spec.cumulative h rate k) ->
  carries_nonfinite n rate c.
Proof.
  intros Hlen Hc. split; [exact Hlen |].
  intros i k Hik Hk Hi. rewrite Hc by exact Hk.
  exact (cumulative_nonfinite h rate i k Hik Hi).
Qed.




End DegenerateVariances.

(** ** The beta envelopes at the ends of the record *)

Section BetaEnvelopes.

Import parametric_functions.
Local Open Scope float_scope.

Context {libm : Libm}.

Lemma length_interior (a : ndarray) : length (np.interior a) = (length a - 2)%nat.
Proof.
  unfold np.interior. destruct a as [| x a]; [reflexivity |]. simpl tl.
  destruct a as [| y a] using rev_ind; [reflexivity |].
  rewrite removelast_last. simpl. rewrite length_app. simpl. lia.
Qed.

Lemma nth_error_last (a : ndarray) (d : float) :
  a <> [] -> nth_error a (length a - 1) = Some (last a d).
Proof.
  destruct a as [| y a] using rev_ind; [congruence |]. intros _.
  rewrite last_last, length_app. simpl.
  rewrite nth_error_app2 by lia.
  replace (length a + 1 - 1 - length a)%nat with O by lia. reflexivity.
Qed.

Lemma last_zeros (n : nat) (d : float) : last (np.zeros n) d = d \/ last (np.zeros n) d = 0.
Proof.
  unfold np.zeros. induction n as [| n IH]; [left; reflexivity |].
  destruct n as [| n]; [right; reflexivity |].
  change (last (repeat 0 (S (S n))) d) with (last (repeat 0 (S n)) d). exact IH.
Qed.

(** [multi_mdl = np.zeros_like(t); multi_mdl[1:-1] = s]: the write succeeds
    and leaves 0.0 at both ends. *)
Lemma interior_write_keeps_zero_ends (n : nat) (s : ndarray) :
  length s = (n - 2)%nat ->
  exists multi,
    np.assign_interior (np.zeros n) s = Ok multi /\ length multi = n /\
    forall i, (i < n)%nat -> i = O \/ i = (n - 1)%nat -> nth_error multi i = Some 0.
Proof.
  intros Hs. unfold np.assign_interior.
  rewrite length_interior. unfold np.zeros at 1. rewrite repeat_length, Hs, Nat.eqb_refl.
  destruct n as [| [| n]].
  - exists []. repeat split. intros i Hi. lia.
  - exists [0]. repeat split. intros i Hi _. replace i with O by lia. reflexivity.
  - simpl np.zeros. simpl in Hs.
    exists (0 :: s ++ [last (0 :: repeat 0 n) 0]). split; [reflexivity |]. split.
    + simpl. rewrite length_app. simpl. lia.
    + intros i Hi [-> | ->]; [reflexivity |].
      replace (S (S n) - 1)%nat with (S n) by lia. simpl nth_error.
      rewrite nth_error_app2 by lia.
      replace (n - length s)%nat with O by lia. simpl nth_error.
      destruct (last_zeros (S n) 0) as [H | H]; exact (f_equal Some H).
Qed.

(** [np.sqrt(Et * multi_mdl)] at a sample where [multi_mdl] is 0.0. *)
Lemma envelope_of_zero (Et : float) :
  np.isfinite Et = true ->
  np.is_zero (sqrt (Et * 0)) = true /\ np.isfinite (sqrt (Et * 0)) = true.
Proof.
  intros HEt. destruct (mul_finite_zero Et HEt) as [s Hs].
  exact (signed_zero_is_zero _ s (sqrt_signed_zero _ s Hs)).
Qed.

(** A sample of a duplicate-free axis that starts at 0 and ends at [tn]
    carries the time 0 or [tn] only at one of the two ends. *)
Lemma endpoint_index (t : ndarray) (tn : float) (i : nat) (x : float) :
  NoDup t -> nth_error t 0 = Some 0 -> last t 0 = tn ->
  nth_error t i = Some x -> x = 0 \/ x = tn ->
  (i < length t)%nat /\ (i = O \/ i = (length t - 1)%nat).
Proof.
  intros Hnd H0 Hlast Hi Hx.
  assert (Hlt : (i < length t)%nat) by (apply nth_error_Some; congruence).
  split; [exact Hlt |].
  pose proof (proj1 (NoDup_nth_error t) Hnd) as Hinj.
  destruct Hx as [-> | ->].
  - left. apply Hinj; [exact Hlt | congruence].
  - right. apply Hinj; [exact Hlt |].
    rewrite Hi, <- Hlast. symmetry. apply nth_error_last.
    intros ->. simpl in Hlt. lia.
Qed.

(** The envelope built from [multi_mdl] is zero at those samples. *)
Lemma envelope_zero_at_endpoints (t multi : ndarray) (Et tn : float) :
  NoDup t -> nth_error t 0 = Some 0 -> last t 0 = tn -> np.isfinite Et = true ->
  length multi = length t ->
  (forall i, (i < length t)%nat -> i = O \/ i = (length t - 1)%nat ->
     nth_error multi i = Some 0) ->
  zero_at_endpoints t tn (np.sqrt (np.scalar_mul Et multi)).
Proof.
  intros Hnd H0 Hlast HEt Hlen Hends. split.
  - unfold np.sqrt, np.scalar_mul. rewrite !length_map. exact Hlen.
  - intros i x Hi Hx.
    destruct (endpoint_index t tn i x Hnd H0 Hlast Hi Hx) as [Hlt Hpos].
    exists (sqrt (Et * 0)). split; [| exact (envelope_of_zero Et HEt)].
    unfold np.sqrt, np.scalar_mul. rewrite !nth_error_map.
    rewrite (Hends i Hlt Hpos). reflexivity.
Qed.


End BetaEnvelopes.


(** ** The grid: construction, assignment and caches *)

Section Grid.

Import domain_config ops.

(** C3, as the code has it.  Constructing a grid and assigning [npts] or
    [dt] never reject a value: every [npts] and every [dt], zero and negative
    ones included, is stored exactly as given (it is not coerced either), and
    the caches are cleared.  No validation happens at construction or at
    assignment. *)
Theorem grid_accepts_every_npts_and_dt :
  forall (npts : Z) (dt : float),
    (exists g, domain_config.__init__ npts dt = Ok g /\
               _npts g = npts /\ _dt g = dt /\ _reset_cache g = g)
    /\
    (forall g, exists g', set_npts npts g = (Ok tt, g') /\
               _npts g' = npts /\ _dt g' = _dt g /\ _reset_cache g' = g')
    /\
    (forall g, exists g', set_dt dt g = (Ok tt, g') /\
               _npts g' = _npts g /\ _dt g' = dt /\ _reset_cache g' = g').
Proof.
  intros npts dt. split; [| split].
  - eexists. split; [reflexivity |]. repeat split.
  - intros g. eexists. split; [reflexivity |]. repeat split.
  - intros g. eexists. split; [reflexivity |]. repeat split.
Qed.

(** The claim of C3 fails at [npts = 0], [dt = 0.0] and at the assignments
    [npts = -5] and [dt = -1.0]: all four are accepted and stored. *)
Lemma nonpositive_grid_is_accepted :
  (exists g, domain_config.__init__ 0 0 = Ok g /\ _npts g = 0%Z /\ _dt g = 0%float)
  /\
  (exists g, domain_config.__init__ 4 1 = Ok g /\
     (exists g', set_npts (-5) g = (Ok tt, g') /\ _npts g' = (-5)%Z) /\
     (exists g', set_dt (-1) g = (Ok tt, g') /\ _dt g' = (-1)%float)).
Proof.
  split.
  - eexists. split; [reflexivity |]. split; reflexivity.
  - eexists. split; [reflexivity |].
    split; eexists; (split; [reflexivity |]); reflexivity.
Qed.

Lemma init_coherent (npts : Z) (dt : float) (g : DomainConfig) :
  domain_config.__init__ npts dt = Ok g -> grid_coherent g.
Proof.
  intros H. injection H as <-. repeat split; simpl; intros ? H'; discriminate.
Qed.

Lemma reset_coherent (g : DomainConfig) : grid_coherent (_reset_cache g).
Proof. repeat split; simpl; intros ? H'; discriminate. Qed.

Ltac run_method :=
  unfold grid_step, set_npts, set_dt, domain_config.t, freq, freq_sim, freq_mask,
    set_freq_mask, bind, gets, modify, lift, ret;
  cbn beta iota.

Lemma freq_coherent (g : DomainConfig) :
  grid_coherent g ->
  fst (freq g) = Ok (signal_analysis.get_freq (_npts g) (_dt g)) /\
  grid_coherent (snd (freq g)) /\
  _npts (snd (freq g)) = _npts g /\ _dt (snd (freq g)) = _dt g /\
  _freq_mask (snd (freq g)) = _freq_mask g.
Proof.
  intros Hg. pose proof Hg as (Ht & Hf & Hs & Hm). run_method.
  destruct (_freq g) as [a |] eqn:E; cbn.
  - rewrite (Hf a eq_refl).
    split; [reflexivity |]. split; [exact Hg |]. repeat split.
  - repeat split; cbn; try assumption.
    intros a H. injection H as <-. reflexivity.
Qed.

Lemma set_freq_mask_coherent (r : float * float) (g : DomainConfig) :
  grid_coherent g ->
  fst (set_freq_mask r g) = Ok tt /\ grid_coherent (snd (set_freq_mask r g)).
Proof.
  intros Hg. unfold set_freq_mask, bind, modify.
  pose proof (freq_coherent g Hg) as (Hr & Hc & Hn & Hd & Hk).
  destruct (freq g) as [[a | e] g']; cbn in *; [| discriminate].
  injection Hr as ->. destruct Hc as (Ht & Hf & Hs & Hm).
  split; [reflexivity |]. repeat split; cbn; try assumption.
  intros b H. injection H as <-. rewrite Hn, Hd. exists r. reflexivity.
Qed.

Lemma grid_step_coherent (o : grid_op) (g : DomainConfig) :
  grid_coherent g -> grid_coherent (snd (grid_step o g)).
Proof.
  intros Hg. destruct o as [n | h | | | | | r].
  - apply reset_coherent.
  - apply reset_coherent.
  - pose proof Hg as (Ht & Hf & Hs & Hm). run_method.
    destruct (_t g) as [a |] eqn:E; cbn; [exact Hg |].
    repeat split; cbn; try assumption.
    intros a H. injection H as <-. reflexivity.
  - change (snd (grid_step read_freq g)) with (snd (bind freq (fun _ => ret tt) g)).
    unfold bind, ret. pose proof (freq_coherent g Hg) as (Hr & Hc & _).
    destruct (freq g) as [[a | e] g']; cbn in *; exact Hc.
  - pose proof Hg as (Ht & Hf & Hs & Hm). run_method.
    destruct (_freq_sim g) as [a |] eqn:E; cbn; [exact Hg |].
    destruct (npts_sim (_npts g)) as [ns | e] eqn:En; cbn; [| exact Hg].
    repeat split; cbn; try assumption.
    intros a H. injection H as <-. exists ns. split; [exact En | reflexivity].
  - unfold grid_step, freq_mask, bind, gets, ret. cbn beta iota.
    destruct (_freq_mask g) as [b |] eqn:E; cbn; [exact Hg |].
    pose proof (set_freq_mask_coherent (0x1.999999999999ap-4, 25)%float g Hg)
      as (Hr & Hc).
    destruct (set_freq_mask _ g) as [[[] | e] g']; cbn in *; [| discriminate].
    destruct (_freq_mask g'); exact Hc.
  - exact (proj2 (set_freq_mask_coherent r g Hg)).
Qed.

Lemma run_grid_coherent (os : list grid_op) (g : DomainConfig) :
  grid_coherent g -> grid_coherent (run_grid os g).
Proof.
  revert g. induction os as [| o os IH]; intros g Hg; simpl; [exact Hg |].
  apply IH, grid_step_coherent, Hg.
Qed.

Lemma length_get_time (n : Z) (h : float) :
  length (signal_analysis.get_time n h) = Z.to_nat n.
Proof. unfold signal_analysis.get_time. rewrite length_map. apply length_seq. Qed.

Lemma length_get_freq (n : Z) (h : float) :
  length (signal_analysis.get_freq n h) = Z.to_nat n.
Proof. unfold signal_analysis.get_freq. rewrite length_map. apply length_seq. Qed.

Lemma npts_sim_positive (n : Z) :
  (0 < n)%Z ->
  npts_sim n = Ok (2 ^ Z.log2_up (2 * n))%Z /\
  least_power_of_two_from (2 * n) (2 ^ Z.log2_up (2 * n)).
Proof.
  intros Hn. split.
  - unfold npts_sim. destruct (Z.ltb_spec 0 n); [reflexivity | lia].
  - split; [| split].
    + exists (Z.log2_up (2 * n)). split; [apply Z.log2_up_nonneg | reflexivity].
    + apply Z.log2_up_spec. lia.
    + intros e He Hle. apply Z.pow_le_mono_r; [lia |].
      apply Z.log2_up_le_pow2; lia.
Qed.



End Grid.

(** ** The model: setters, reset and array lengths *)

Section Model.

Import domain_config model_config ops.

Lemma t_returns (g : DomainConfig) :
  exists a, domain_config.t g = (Ok a, snd (domain_config.t g)).
Proof.
  unfold domain_config.t, bind, gets, modify, ret. cbn beta iota.
  destruct (_t g); eexists; reflexivity.
Qed.

Lemma length_assign_all (a r v : ndarray) :
  np.assign_all a r = Ok v -> length v = length a.
Proof.
  unfold np.assign_all. destruct (Nat.eqb_spec (length r) (length a)) as [E | E].
  - intros H. injection H as <-. exact E.
  - destruct r as [| x [| y r]]; try discriminate.
    intros H. injection H as <-. unfold np.fill. apply length_map.
Qed.

Lemma fill_all_zero (a : ndarray) : Forall (fun x => x = 0%float) (np.fill a 0).
Proof. unfold np.fill. induction a; simpl; constructor; auto. Qed.

Lemma reset_all_zero (s : Stats) : all_zero (derived_statistics (reset_stats s)).
Proof.
  unfold all_zero, derived_statistics, extrema_curves, reset_stats. cbn.
  repeat constructor; apply fill_all_zero.
Qed.

Lemma assign_cases (q : quantity) (ps : list float) (m : ModelConfig) :
  (fst (assign q ps m) = Ok tt /\ exists v, assigned q ps m (snd (assign q ps m)) v)
  \/
  ((exists e, fst (assign q ps m) = Raise e) /\
   snd (assign q ps m) = with_grid (snd (domain_config.t (grid m))) m).
Proof.
  destruct (t_returns (grid m)) as [a Ha].
  destruct q;
    unfold assign, assigned, set_mdl, set_wu, set_zu, set_wl, set_zl,
      mdl, wu, zu, wl, zl, _reset_attributes, inherited, zoom,
      bind, gets, lift, modify, ret;
    rewrite Ha; cbn;
    match goal with
    | |- context [?f (funcs m) a ps] =>
        destruct (f (funcs m) a ps) as [r | e]; cbn;
        [| right; split; [eexists; reflexivity | reflexivity]]
    end;
    match goal with
    | |- context [np.assign_all ?old ?new] =>
        destruct (np.assign_all old new) as [v | e] eqn:Ev; cbn;
        [| right; split; [eexists; reflexivity | reflexivity]]
    end;
    left; (split; [reflexivity |]); eexists; (split; [| reflexivity]); cbn;
    unfold np.mul_scalar; rewrite ?length_map;
    exact (length_assign_all _ _ _ Ev).
Qed.




(** *** Lengths under every sequence of operations *)

Lemma t_coherent (g : DomainConfig) :
  grid_coherent g -> grid_coherent (snd (domain_config.t g)).
Proof.
  intros Hg. pose proof (grid_step_coherent read_t g Hg) as H.
  unfold grid_step, bind, ret in H.
  destruct (domain_config.t g) as [[a | e] g']; exact H.
Qed.

Ltac split_rows H :=
  unfold rows_have_length, extrema_curves in H; cbn in H;
  repeat (let h := fresh "Hrow" in
          apply Forall_cons_iff in H; destruct H as [h H]).

Ltac prove_rows :=
  unfold rows_have_length, extrema_curves; cbn;
  repeat (apply Forall_cons; [first [assumption | idtac] |]); try apply Forall_nil.

Lemma rows_computed (n : nat) (m : ModelConfig) :
  rows_have_length n m -> spec.computed n (stats m).
Proof. intros H. split_rows H. repeat split; assumption. Qed.

(** A rate method of [model_core] on equal-length variance arrays: it
    returns a curve of that length and assigns it to its attribute. *)
Lemma rate_method_assigns (f : family) (r : spec.response) (m : ModelConfig) (n : nat) :
  spec.computed n (stats m) ->
  exists c, get_curve f r m = (Ok c, with_stats (put_curve f r c) m) /\ length c = n.
Proof.
  intros (H0 & H1 & H2 & Hb & H2b).
  destruct f, r; eexists;
    (split; [unfold get_curve; run_rate_method; reflexivity |]);
    first [ apply one_ratio_curve; assumption
          | apply two_ratio_curve; assumption ].
Qed.

Lemma step_invariant (o : model_op) (n k : nat) (m : ModelConfig) :
  model_invariant n k m -> model_invariant n k (snd (step o m)).
Proof.
  intros (Hg & Hrows & Hfas). destruct o as [o' | q ps | q | f r].
  - unfold step, inherited, zoom.
    pose proof (grid_step_coherent o' (grid m) Hg) as Hc.
    destruct (grid_step o' (grid m)) as [res g']. cbn in *.
    split; [exact Hc |]. split; [exact Hrows | exact Hfas].
  - unfold step.
    destruct (assign_cases q ps m) as [(_ & v & Hlen & ->) | (_ & ->)].
    + split; [exact (t_coherent _ Hg) |]. cbn.
      split; [| unfold np.fill; rewrite length_map; exact Hfas].
      split_rows Hrows.
      destruct q; cbn in Hlen; prove_rows;
        unfold np.fill, np.mul_scalar; rewrite ?length_map;
        first [assumption | rewrite Hlen; assumption].
    + split; [exact (t_coherent _ Hg) |]. split; [exact Hrows | exact Hfas].
  - unfold step, read, bind, ret.
    destruct q; cbn; (split; [exact Hg |]); (split; [exact Hrows | exact Hfas]).
  - unfold step, bind, ret.
    destruct (rate_method_assigns f r m n (rows_computed n m Hrows)) as (c & -> & Hc).
    cbn. split; [exact Hg |].
    split; [| destruct f, r; exact Hfas].
    split_rows Hrows. destruct f, r; prove_rows.
Qed.

Lemma run_invariant (os : list model_op) (n k : nat) (m : ModelConfig) :
  model_invariant n k m -> model_invariant n k (run os m).
Proof.
  revert m. induction os as [| o os IH]; intros m Hm; simpl; [exact Hm |].
  apply IH, step_invariant, Hm.
Qed.

Lemma init_invariant (npts : Z) (dt : float) (f1 f2 f3 f4 f5 : shape_func)
    (m : ModelConfig) :
  model_config.__init__ npts dt f1 f2 f3 f4 f5 = Ok m ->
  model_invariant (Z.to_nat npts) (length (signal_analysis.get_freq npts dt)) m.
Proof.
  unfold model_config.__init__. cbn.
  unfold np.zeros_rows. destruct (npts <? 0)%Z; [discriminate |].
  intros H. injection H as <-. split; [| split].
  - repeat split; cbn; intros a H; try discriminate.
    injection H as <-. reflexivity.
  - unfold rows_have_length, extrema_curves. cbn.
    repeat constructor; unfold np.zeros; apply repeat_length.
  - cbn. unfold np.zeros_like, np.zeros. apply repeat_length.
Qed.




End Model.

(** ** The count given to [simulate] *)

Section Simulation.

Import domain_config model_config model_core stochastic_model ops.

Context {K : Collaborators}.

Lemma length_draw_rows (n k : nat) (g : Generator) :
  length (fst (draw_rows n k g)) = n.
Proof.
  revert g. induction n as [| n IH]; intros g; simpl; [reflexivity |].
  destruct (draw_row k g) as [r g1]. specialize (IH g1).
  destruct (draw_rows n k g1) as [rs g2]. simpl in *. congruence.
Qed.

Lemma four_bins (npts : Z) (h : float) :
  (2 <= npts)%Z ->
  exists ns, npts_sim npts = Ok ns /\
             (4 <= length (signal_analysis.get_freq ns h))%nat.
Proof.
  intros Hn. destruct (npts_sim_positive npts) as (Hns & (_ & Hge & _)); [lia |].
  eexists. split; [exact Hns |].
  rewrite length_get_freq. 
  assert (0 <= 2 ^ Z.log2_up (2 * npts))%Z by (apply Z.pow_nonneg; lia). lia.
Qed.

Lemma irfft_truncated_returns (cols : nat) (npts : Z) (x : list (list complex)) :
  (2 <= cols)%nat ->
  irfft_truncated cols npts x
  = Ok (map (fun row => firstn (Z.to_nat npts) (irfft_row row)) x).
Proof.
  intros H. unfold irfft_truncated.
  destruct (Nat.ltb_spec (2 * (cols - 1)) 1); [lia | reflexivity].
Qed.

Lemma truncated_ensemble (z npts : Z) (x : list (list complex)) :
  length x = Z.to_nat z ->
  ensemble_of z npts (Some (map (fun row => firstn (Z.to_nat npts) (irfft_row row)) x)).
Proof.
  intros H. eexists. split; [reflexivity |]. split.
  - rewrite length_map. exact H.
  - apply Forall_map, Forall_forall. intros row _. apply firstn_le_length.
Qed.

(** Unfolds [simulate] down to the caches of the grid. *)
Ltac unfold_simulate :=
  unfold simulate, on_model, stats_current, get_stats, standard_normal,
    self_variance, mdl, wu, zu, wl, zl, inherited, zoom,
    domain_config.npts, domain_config.t, domain_config.freq, domain_config.freq_sim,
    bind, gets, lift, modify, ret.

End Simulation.

Section SimulationInstances.

Import domain_config model_config stochastic_model ops.

Lemma model3_grid_coherent : grid_coherent (grid examples.model3).
Proof.
  repeat split; cbn; intros a H; try discriminate.
  injection H as <-. reflexivity.
Qed.



End SimulationInstances.

(** ** What [simulate] divides, and what it depends on *)

Section Synthesis.

Import domain_config model_config stochastic_model.

Context {K : Collaborators}.

(** Seeding and then simulating is a function of the seed, the count and
    the model alone: two simulators that hold the same model and the same
    ensembles, whatever their generators and earlier seeds, end with the same
    outcome, the same model and the same three ensembles. *)
Theorem seeded_simulation_is_deterministic :
  forall (s1 s2 : StochasticModel) (value : Z) (n : pyobj),
    model s1 = model s2 -> ensembles s1 = ensembles s2 ->
    let run := bind (set_seed value) (fun _ => simulate n) in
    fst (run s1) = fst (run s2) /\
    model (snd (run s1)) = model (snd (run s2)) /\
    ensembles (snd (run s1)) = ensembles (snd (run s2)).
Proof.
  intros [m1 g1 sd1 a1 v1 d1] [m2 g2 sd2 a2 v2 d2] value n Hm He run.
  cbn in Hm. unfold ensembles in He. cbn in He. injection He as -> -> ->. subst m2.
  subst run. unfold set_seed, bind, modify, lift. cbn.
  destruct (value <? 0)%Z; cbn; repeat split; reflexivity.
Qed.

End Synthesis.

(** The theorem at two copies of [simulator3] with different generators. *)
Lemma seeded_simulation_witness :
  let run := bind (stochastic_model.set_seed (K := examples.toy) 7)
                  (fun _ => stochastic_model.simulate (PyInt 2)) in
  stochastic_model.ensembles (snd (run examples.simulator3))
  = stochastic_model.ensembles
      (snd (run (stochastic_model.with_rng (K := examples.toy) 41%Z
                   examples.simulator3))).
Proof.
  exact (proj2 (proj2 (seeded_simulation_is_deterministic (K := examples.toy)
                         examples.simulator3
                         (stochastic_model.with_rng (K := examples.toy) 41%Z
                            examples.simulator3)
                         7 (PyInt 2) eq_refl eq_refl))).
Defined.

(** * Further properties *)

(** ** The caches of the grid *)

Section GridCaches.

Import domain_config ops.

Lemma t_serves_current (g : DomainConfig) :
  grid_coherent g ->
  exists g1, domain_config.t g = (Ok (signal_analysis.get_time (_npts g) (_dt g)), g1) /\
             domain_config.t g1 = (Ok (signal_analysis.get_time (_npts g) (_dt g)), g1).
Proof.
  intros (Ht & _). unfold domain_config.t, bind, gets, modify, ret. cbn beta iota.
  destruct (_t g) as [a |] eqn:E.
  - rewrite <- (Ht a eq_refl). exists g. rewrite E. split; reflexivity.
  - eexists. split; reflexivity.
Qed.

Lemma freq_serves_current (g : DomainConfig) :
  grid_coherent g ->
  exists g1, freq g = (Ok (signal_analysis.get_freq (_npts g) (_dt g)), g1) /\
             freq g1 = (Ok (signal_analysis.get_freq (_npts g) (_dt g)), g1).
Proof.
  intros (_ & Hf & _). unfold freq, bind, gets, modify, ret. cbn beta iota.
  destruct (_freq g) as [a |] eqn:E.
  - rewrite <- (Hf a eq_refl). exists g. rewrite E. split; reflexivity.
  - eexists. split; reflexivity.
Qed.

Lemma freq_sim_serves_current (g : DomainConfig) :
  grid_coherent g ->
  (forall ns, npts_sim (_npts g) = Ok ns ->
     exists g1, freq_sim g = (Ok (signal_analysis.get_freq ns (_dt g)), g1) /\
                freq_sim g1 = (Ok (signal_analysis.get_freq ns (_dt g)), g1)) /\
  (forall e, npts_sim (_npts g) = Raise e -> freq_sim g = (Raise e, g)).
Proof.
  intros (_ & _ & Hs & _). unfold freq_sim, bind, gets, modify, lift, ret. cbn beta iota.
  destruct (_freq_sim g) as [a |] eqn:E.
  - destruct (Hs a eq_refl) as (ns' & Hns' & ->). split.
    + intros ns Hns. rewrite Hns in Hns'. injection Hns' as <-.
      exists g. rewrite E. split; reflexivity.
    + intros e He. rewrite He in Hns'. discriminate.
  - split.
    + intros ns Hns. rewrite Hns. cbn. eexists. split; [reflexivity |]. cbn. reflexivity.
    + intros e He. rewrite He. reflexivity.
Qed.

(** On every grid, however it was reached, a read of [t] or [freq] returns
    what the helper gives for the [npts] and [dt] stored now, never an array
    computed for earlier values, and a second read returns the same array
    and leaves the grid as it is.  The same holds of [freq_sim] when the
    padded count exists; when it does not ([npts] negative) the read raises
    and the grid is unchanged. *)
Theorem grid_axes_are_current_and_memoised :
  forall (npts0 : Z) (dt0 : float) (g0 : DomainConfig) (os : list grid_op),
    domain_config.__init__ npts0 dt0 = Ok g0 ->
    let g := run_grid os g0 in
    let time := signal_analysis.get_time (_npts g) (_dt g) in
    let frequency := signal_analysis.get_freq (_npts g) (_dt g) in
    (exists g1, domain_config.t g = (Ok time, g1) /\ domain_config.t g1 = (Ok time, g1)) /\
    (exists g1, freq g = (Ok frequency, g1) /\ freq g1 = (Ok frequency, g1)) /\
    (forall ns, npts_sim (_npts g) = Ok ns ->
       exists g1, freq_sim g = (Ok (signal_analysis.get_freq ns (_dt g)), g1) /\
                  freq_sim g1 = (Ok (signal_analysis.get_freq ns (_dt g)), g1)) /\
    (forall e, npts_sim (_npts g) = Raise e -> freq_sim g = (Raise e, g)).
Proof.
  intros npts0 dt0 g0 os Hinit g time frequency.
  assert (Hg : grid_coherent g)
    by (apply run_grid_coherent, (init_coherent npts0 dt0), Hinit).
  split; [exact (t_serves_current g Hg) |].
  split; [exact (freq_serves_current g Hg) |].
  exact (freq_sim_serves_current g Hg).
Qed.

(** The theorem after a read of [t], [dt = 0.25] and [npts = 3] on
    [DomainConfig(5, 1.0)]: the next read of [t] is [0, 0.25, 0.5]. *)
Lemma grid_axes_current_witness :
  fst (domain_config.t
         (run_grid [read_t; assign_dt 0x1p-2; assign_npts 3]
            {| _npts := 5; _dt := 1; _t := None; _freq := None;
               _freq_sim := None; _freq_sim_p2 := None; _freq_mask := None;
               _tp := None; _freq_p2 := None; _freq_p4 := None;
               _freq_n2 := None; _freq_n4 := None |}))
  = Ok [0; 0x1p-2; 0x1p-1]%float.
Proof.
  destruct (grid_axes_are_current_and_memoised 5 1 _
              [read_t; assign_dt 0x1p-2; assign_npts 3] eq_refl)
    as ((g1 & H & _) & _).
  rewrite H. reflexivity.
Defined.

(** A band given to the [freq_mask] setter does not survive an assignment
    of [npts] or [dt]: the next read of [freq_mask] is the mask of the
    default band (0.1, 25.0) Hz over the new frequency axis.  Without such
    an assignment the read is the mask of the given band over the current
    axis. *)
Theorem frequency_mask_follows_the_grid :
  forall (g : DomainConfig) (r : float * float) (n : Z) (h : float),
    returns freq_mask (run_grid [assign_freq_mask r; assign_npts n] g)
      (signal_analysis.get_freq_mask (signal_analysis.get_freq n (_dt g)) default_band)
    /\
    returns freq_mask (run_grid [assign_freq_mask r; assign_dt h] g)
      (signal_analysis.get_freq_mask (signal_analysis.get_freq (_npts g) h) default_band)
    /\
    (grid_coherent g ->
     returns freq_mask (run_grid [assign_freq_mask r] g)
       (signal_analysis.get_freq_mask
          (signal_analysis.get_freq (_npts g) (_dt g)) r)).
Proof.
  intros g r n h. split; [| split].
  - destruct g as [np dt ct [cf |] cfs cfs2 cm ctp c2 c4 cn2 cn4]; reflexivity.
  - destruct g as [np dt ct [cf |] cfs cfs2 cm ctp c2 c4 cn2 cn4]; reflexivity.
  - intros Hg. unfold returns. cbn [run_grid grid_step].
    unfold set_freq_mask, bind, modify.
    destruct (freq_serves_current g Hg) as (g1 & H1 & _). rewrite H1. reflexivity.
Qed.

End GridCaches.

(** ** Assignments to the five quantities *)

Section Assignment.

Import domain_config model_config ops.

Lemma t_twice (g : DomainConfig) :
  domain_config.t (snd (domain_config.t g))
  = (fst (domain_config.t g), snd (domain_config.t g)).
Proof.
  unfold domain_config.t, bind, gets, modify, ret. cbn beta iota.
  destruct (_t g) as [a |] eqn:E; cbn; [rewrite E |]; reflexivity.
Qed.

Lemma fill_by_length (a b : ndarray) (x : float) :
  length a = length b -> np.fill a x = np.fill b x.
Proof.
  unfold np.fill. revert b.
  induction a as [| y a IH]; intros [| z b] H; cbn in *; try discriminate;
    [reflexivity | f_equal; apply IH; lia].
Qed.

(** An assignment to a quantity that raises (in the shape function or in
    the write through [[:]]) leaves the five series, the recorded parameters,
    the statistics and the functions exactly as they were; only the cache of
    the time axis may have been filled. *)
Theorem failed_assignment_is_atomic :
  forall (m : ModelConfig) (q : quantity) (ps : list float) (e : exn),
    fst (assign q ps m) = Raise e ->
    let m' := snd (assign q ps m) in
    series m' = series m /\ params m' = params m /\ stats m' = stats m /\
    funcs m' = funcs m /\ grid m' = snd (domain_config.t (grid m)).
Proof.
  intros m q ps e H m'. subst m'.
  destruct (assign_cases q ps m) as [(Hok & _) | (_ & ->)].
  - rewrite Hok in H. discriminate.
  - repeat split.
Qed.

Lemma assign_run (q : quantity) (ps : list float) (m : ModelConfig) (axis r : ndarray) :
  fst (domain_config.t (grid m)) = Ok axis ->
  func_of q (funcs m) axis ps = Ok r ->
  assign q ps m
  = match np.assign_all (stored q m) r with
    | Ok v =>
        (Ok tt,
         {| grid := snd (domain_config.t (grid m));
            funcs := funcs m;
            series := match q with
                      | q_mdl => put_mdl v (series m)
                      | q_wu => put_wu (np.mul_scalar v (2 * np.pi)) (series m)
                      | q_zu => put_zu v (series m)
                      | q_wl => put_wl (np.mul_scalar v (2 * np.pi)) (series m)
                      | q_zl => put_zl v (series m)
                      end;
            params := match q with
                      | q_mdl => put_mdl_params ps (params m)
                      | q_wu => put_wu_params ps (params m)
                      | q_zu => put_zu_params ps (params m)
                      | q_wl => put_wl_params ps (params m)
                      | q_zl => put_zl_params ps (params m)
                      end;
            stats := reset_stats (stats m) |})
    | Raise e => (Raise e, with_grid (snd (domain_config.t (grid m))) m)
    end.
Proof.
  intros Ht Hf. destruct (t_returns (grid m)) as [a Ha].
  rewrite Ha in Ht. cbn in Ht. injection Ht as ->.
  destruct q; cbn in Hf |- *;
    unfold assign, set_mdl, set_wu, set_zu, set_wl, set_zl,
      mdl, wu, zu, wl, zl, _reset_attributes, inherited, zoom,
      bind, gets, lift, modify, ret;
    rewrite Ha; cbn; rewrite Hf; cbn;
    match goal with
    | |- context [np.assign_all ?old ?new] => destruct (np.assign_all old new)
    end; reflexivity.
Qed.

(** What the write through [[:]] makes of the series [r] a shape function
    returns.  When [r] has the length of the stored series the assignment
    returns, stores [r] (times [2 * np.pi] for [wu] and [wl]) and records the
    parameters; a single value is stretched over the stored length; any
    other length is a ValueError that leaves the stored series alone. *)
Theorem assignment_checks_the_shape :
  forall (m : ModelConfig) (q : quantity) (ps : list float) (axis r : ndarray),
    fst (domain_config.t (grid m)) = Ok axis ->
    func_of q (funcs m) axis ps = Ok r ->
    let m' := snd (assign q ps m) in
    (length r = length (stored q m) ->
       fst (assign q ps m) = Ok tt /\ stored q m' = in_stored_units q r /\
       recorded q (params m') = Some ps)
    /\
    (forall x, r = [x] -> length (stored q m) <> 1%nat ->
       fst (assign q ps m) = Ok tt /\
       stored q m' = in_stored_units q (np.fill (stored q m) x))
    /\
    (length r <> length (stored q m) -> length r <> 1%nat ->
       fst (assign q ps m) = Raise ValueError /\ stored q m' = stored q m).
Proof.
  intros m q ps axis r Ht Hf m'. subst m'. rewrite (assign_run q ps m axis r Ht Hf).
  unfold np.assign_all. split; [| split].
  - intros Hlen. rewrite Hlen, Nat.eqb_refl. destruct q; repeat split.
  - intros x -> Hne.
    destruct (Nat.eqb_spec (length [x]) (length (stored q m))) as [E | E];
      [cbn in E; congruence |].
    destruct q; repeat split.
  - intros Hne H1.
    destruct (Nat.eqb_spec (length r) (length (stored q m))) as [E | E]; [contradiction |].
    destruct r as [| x [| y r]]; cbn in H1; try contradiction; destruct q; split; reflexivity.
Qed.

(** Assigning the same parameter vector a second time returns and changes
    nothing at all: in particular the factor [2 * np.pi] of [wu] and [wl] is
    applied to the fresh output of the shape function, not compounded on
    the series already stored. *)
Theorem reassignment_changes_nothing :
  forall (m : ModelConfig) (q : quantity) (ps : list float),
    fst (assign q ps m) = Ok tt ->
    let m1 := snd (assign q ps m) in
    assign q ps m1 = (Ok tt, m1).
Proof.
  intros m q ps H m1. subst m1.
  destruct (t_returns (grid m)) as [axis Ha].
  assert (Ht : fst (domain_config.t (grid m)) = Ok axis) by (rewrite Ha; reflexivity).
  destruct (func_of q (funcs m) axis ps) as [r | e] eqn:Hf.
  - rewrite (assign_run q ps m axis r Ht Hf) in H |- *.
    destruct (np.assign_all (stored q m) r) as [v | e] eqn:Ev; [| discriminate].
    cbn [snd].
    pose proof (length_assign_all _ _ _ Ev) as Hlen.
    set (m1 := {| grid := snd (domain_config.t (grid m)); funcs := funcs m;
                  series := _; params := _; stats := reset_stats (stats m) |}).
    assert (Ht1 : fst (domain_config.t (grid m1)) = Ok axis).
    { change (grid m1) with (snd (domain_config.t (grid m))).
      rewrite t_twice. exact Ht. }
    assert (Hf1 : func_of q (funcs m1) axis ps = Ok r) by exact Hf.
    rewrite (assign_run q ps m1 axis r Ht1 Hf1).
    assert (Hl : length (stored q m1) = length (stored q m)).
    { rewrite <- Hlen. unfold m1. clear. destruct q; cbn;
        unfold np.mul_scalar; rewrite ?length_map; reflexivity. }
    assert (Ev1 : np.assign_all (stored q m1) r = Ok v).
    { revert Ev. unfold np.assign_all. rewrite Hl.
      destruct (Nat.eqb (length r) (length (stored q m))); [tauto |].
      destruct r as [| x [| y r]]; try discriminate.
      intros H1. injection H1 as <-. f_equal. apply fill_by_length. exact Hl. }
    rewrite Ev1. f_equal.
    change (grid m1) with (snd (domain_config.t (grid m))).
    rewrite t_twice. cbn [snd]. unfold m1.
    destruct q; cbn -[domain_config.t]; f_equal;
      unfold reset_stats, np.fill; cbn; rewrite ?map_map; reflexivity.
  - exfalso. revert H.
    destruct q; cbn in Hf;
      unfold assign, set_mdl, set_wu, set_zu, set_wl, set_zl,
        mdl, wu, zu, wl, zl, _reset_attributes, inherited, zoom,
        bind, gets, lift, modify, ret;
      rewrite Ha; cbn; rewrite Hf; cbn; discriminate.
Qed.

(** The theorem at [model3] and [mdl = (1.0,)], one parameter short for
    [linear]. *)
Lemma failed_assignment_witness :
  series (snd (assign q_mdl [1]%float examples.model3)) = series examples.model3.
Proof.
  exact (proj1 (failed_assignment_is_atomic examples.model3 q_mdl [1]%float
                  ValueError eq_refl)).
Defined.

(** The theorem at [model3] and [wu = (2.0, 0.5)]. *)
Lemma assignment_shape_witness :
  fst (assign q_wu [2; 0x1p-1]%float examples.model3) = Ok tt.
Proof.
  exact (proj1 (proj1 (assignment_checks_the_shape examples.model3 q_wu
                         [2; 0x1p-1]%float [0; 0x1p-1; 1]%float
                         [2; 0x1.4p+0; 0x1p-1]%float eq_refl eq_refl) eq_refl)).
Defined.

(** The theorem at [model3] and [wu = (2.0, 0.5)], assigned twice. *)
Lemma reassignment_witness :
  stored q_wu (run [assign_quantity q_wu [2; 0x1p-1]%float;
                    assign_quantity q_wu [2; 0x1p-1]%float] examples.model3)
  = stored q_wu (run [assign_quantity q_wu [2; 0x1p-1]%float] examples.model3).
Proof.
  cbn [run step].
  rewrite (reassignment_changes_nothing examples.model3 q_wu [2; 0x1p-1]%float
             eq_refl).
  reflexivity.
Defined.

End Assignment.

(** ** Statistics before they are computed *)

Section ZeroedStatistics.

Import domain_config model_config ops.

Local Open Scope float_scope.

Lemma mul_nan_l (x : float) : nan * x = nan.
Proof.
  apply Prim2SF_inj. rewrite mul_spec. change (Prim2SF nan) with S754_nan.
  reflexivity.
Qed.

Lemma fill_zeros (a : ndarray) : np.fill a 0 = np.zeros (length a).
Proof. unfold np.fill, np.zeros. induction a; cbn; [| rewrite IHa]; reflexivity. Qed.

Lemma map2_repeat (f : float -> float -> float) (x y : float) (n : nat) :
  np.map2 f (repeat x n) (repeat y n) = repeat (f x y) n.
Proof. induction n; cbn; [| rewrite IHn]; reflexivity. Qed.

Lemma map_repeat (f : float -> float) (x : float) (n : nat) :
  map f (repeat x n) = repeat (f x) n.
Proof. induction n; cbn; [| rewrite IHn]; reflexivity. Qed.

Lemma cumsum_from_nan (n : nat) : np.cumsum_from nan (repeat nan n) = repeat nan n.
Proof.
  induction n; [reflexivity |].
  change (np.cumsum_from nan (repeat nan (S n)))
    with ((nan + nan) :: np.cumsum_from (nan + nan) (repeat nan n)).
  change (nan + nan) with nan. rewrite IHn. reflexivity.
Qed.

Lemma cumsum_nan (n : nat) : np.cumsum (repeat nan n) = repeat nan n.
Proof. destruct n; cbn; [| rewrite cumsum_from_nan]; reflexivity. Qed.

Lemma zeros_all_zero (n : nat) : Forall (fun x => x = 0) (np.zeros n).
Proof. unfold np.zeros. induction n; cbn; constructor; auto. Qed.

Lemma rates_of_zeroed (m : ModelConfig) (n : nat) (f : family) (r : spec.response) :
  zeroed n (stats m) -> returns (get_curve f r) m (repeat nan n).
Proof.
  intros (H0 & H1 & H2 & Hb & H2b).
  destruct f, r; unfold get_curve; run_rate_method;
    rewrite ?H0, ?H1, ?H2, ?Hb, ?H2b; unfold np.zeros;
    repeat (rewrite broadcast2_same_length
              by (unfold np.sqrt; rewrite ?length_map, ?length_map2, ?repeat_length;
                  reflexivity));
    cbn beta iota;
    unfold np.sqrt, np.div_scalar, np.mul_scalar;
    rewrite ?map2_repeat, ?map_repeat, ?map2_repeat, ?map_repeat;
    change (0 / 0) with nan; change (sqrt nan) with nan;
    change (nan - nan) with nan;
    change (nan / (2 * np.pi)) with nan; change (nan / (4 * np.pi)) with nan;
    rewrite cumsum_nan, map_repeat, mul_nan_l; reflexivity.
Qed.

(** Right after an assignment to any quantity has returned, each of the
    nine extrema-rate methods returns a curve that is NaN at every sample:
    the reset leaves 0.0 in every variance array, and the ratios are 0/0
    until the variances are recomputed. *)
Theorem statistics_are_nan_until_recomputed :
  forall (m : ModelConfig) (q : quantity) (ps : list float) (n : nat)
         (f : family) (r : spec.response),
    rows_have_length n m ->
    fst (assign q ps m) = Ok tt ->
    returns (get_curve f r) (snd (assign q ps m)) (repeat nan n).
Proof.
  intros m q ps n f r Hrows Hok.
  apply rates_of_zeroed.
  destruct (assign_cases q ps m) as [(_ & v & _ & ->) | ((e & He) & _)];
    [| rewrite Hok in He; discriminate].
  destruct (rows_computed n m Hrows) as (H0 & H1 & H2 & Hb & H2b).
  unfold zeroed. cbn. rewrite !fill_zeros, H0, H1, H2, Hb, H2b. repeat split.
Qed.

(** Two pairs of methods return the same curve on every model state, the
    same exception included: the zero crossings of the acceleration are the
    local extrema of the velocity, and the zero crossings of the velocity
    are the local extrema of the displacement. *)
Theorem twin_extrema_curves :
  forall (m : ModelConfig),
    fst (model_core.get_mzc_ac m) = fst (model_core.get_mle_vel m) /\
    fst (model_core.get_mzc_vel m) = fst (model_core.get_mle_disp m).
Proof.
  intros m. split;
    unfold model_core.get_mzc_ac, model_core.get_mle_vel,
      model_core.get_mzc_vel, model_core.get_mle_disp,
      model_core.self_variance, model_core.self_variance_dot,
      model_core.self_variance_bar, model_core.self_dt,
      inherited, zoom, domain_config.dt, bind, gets, lift, modify, ret;
    cbn beta iota;
    match goal with
    | |- context [np.divide ?a ?b] => destruct (np.divide a b)
    end; reflexivity.
Qed.

(** The theorem at [model3] and [zu = (2.0, 0.5)]. *)
Lemma statistics_nan_witness :
  returns (get_curve mzc spec.displacement)
    (snd (assign q_zu [2; 0x1p-1]%float examples.model3)) [nan; nan; nan]%float.
Proof.
  refine (statistics_are_nan_until_recomputed examples.model3 q_zu
            [2; 0x1p-1]%float 3 mzc spec.displacement _ eq_refl).
  unfold rows_have_length, extrema_curves. cbn. repeat constructor.
Defined.

End ZeroedStatistics.

(** * Motions *)

(** Unfolds the methods of [Motion] down to the state monad. *)
Ltac unfold_motion :=
  unfold motion_model.filter, motion_model.resample, motion_model.apply_mask,
    motion_model.set_energy_mask, motion_model.energy_mask,
    motion_model._reset_attributes, motion_model.self_dt, motion_model.self_npts,
    motion_model.inherited, motion_model.outcome_of,
    domain_config.set_npts, domain_config.set_dt, domain_config.dt, domain_config.npts,
    zoom, bind, gets, modify, lift, ret in *.

Section Motions.

Import domain_config motion_model.
Import Stdlib.Strings.String Stdlib.Strings.Ascii.

Context {H : Helpers}.

Lemma select_length (x : ndarray) (mask : list bool) :
  List.length mask = List.length x ->
  List.length (select x mask) = Z.to_nat (mask_sum mask).
Proof.
  unfold mask_sum. rewrite Nat2Z.id. revert mask.
  induction x as [| v x IH]; intros [| b mask] Hl; cbn in *; try discriminate; try reflexivity.
  injection Hl as Hl. destruct b; cbn; now rewrite IH.
Qed.

(** [Motion.set_range] by mask.  With a boolean mask as long as the
    three signals the call returns: [npts] is the number of True entries,
    [dt] stays, each signal is reduced to its selected samples and so has
    [npts] samples, every derived attribute and the energy mask are None and
    the grid caches are empty.  With a mask of another length than [ac] the
    call raises IndexError after [npts] was already overwritten and the grid
    caches emptied: the signals and the derived attributes stay, now beside
    an [npts] that is not their length. *)
Theorem set_range_by_mask (option : string) (mask : list bool) (m : Motion) :
  lower option = "mask"%string ->
  let reached := snd (set_range option (inr mask) m) in
  (List.length mask = List.length (ac m) -> List.length mask = List.length (vel m) ->
   List.length mask = List.length (disp m) ->
   fst (set_range option (inr mask) m) = returned /\
   _npts (grid reached) = mask_sum mask /\
   _dt (grid reached) = _dt (grid m) /\
   ac reached = select (ac m) mask /\
   vel reached = select (vel m) mask /\
   disp reached = select (disp m) mask /\
   List.length (ac reached) = Z.to_nat (_npts (grid reached)) /\
   List.length (vel reached) = Z.to_nat (_npts (grid reached)) /\
   List.length (disp reached) = Z.to_nat (_npts (grid reached)) /\
   (forall a, derived reached a = None) /\
   _energy_mask reached = None /\
   _reset_cache (grid reached) = grid reached) /\
  (List.length mask <> List.length (ac m) ->
   fst (set_range option (inr mask) m) = raised IndexError /\
   _npts (grid reached) = mask_sum mask /\
   _reset_cache (grid reached) = grid reached /\
   ac reached = ac m /\ vel reached = vel m /\ disp reached = disp m /\
   (forall a, derived reached a = derived m a) /\
   _energy_mask reached = _energy_mask m).
Proof.
  intros Hm reached. subst reached. unfold set_range. rewrite Hm. cbn.
  destruct m as [g a v d dv em]. unfold_motion. unfold boolean_index. cbn. split.
  - intros Ha Hv Hd.
    pose proof (select_length a mask Ha) as La.
    pose proof (select_length v mask Hv) as Lv.
    pose proof (select_length d mask Hd) as Ld.
    apply Nat.eqb_eq in Ha, Hv, Hd. rewrite Ha. cbn. rewrite Hv. cbn. rewrite Hd. cbn.
    repeat split; assumption.
  - intros Ha. apply Nat.eqb_neq in Ha. rewrite Ha. cbn. repeat split.
Qed.

(** ** Reads of derived attributes *)

Lemma signals_inv (m m' : Motion) :
  signals m' = signals m ->
  _npts (grid m') = _npts (grid m) /\ _dt (grid m') = _dt (grid m) /\
  ac m' = ac m /\ vel m' = vel m /\ disp m' = disp m.
Proof. unfold signals. intros E. injection E as En Eh Ea Ev Ed. auto. Qed.

Lemma current_of_signals (a : attr) (m m' : Motion) :
  signals m' = signals m -> current a m' = current a m.
Proof.
  unfold signals. intros E. injection E as En Eh Ea Ev Ed.
  destruct a; cbn; unfold current_spectra; rewrite ?En, ?Eh, ?Ea, ?Ev, ?Ed; reflexivity.
Qed.

Lemma attr_eqb_eq (a b : attr) : attr_eqb a b = true <-> a = b.
Proof. destruct a, b; cbn; split; intros E; try reflexivity; discriminate. Qed.

Lemma attr_eqb_refl (a : attr) : attr_eqb a a = true.
Proof. now apply attr_eqb_eq. Qed.

Lemma read_cached (a : attr) (m : Motion) (v : value) :
  derived m a = Some v -> read a m = (Ok v, m).
Proof.
  intros E. destruct a; cbn; unfold fas, fas_star, ce, mle_ac, mle_vel, mle_disp,
    mzc_ac, mzc_vel, mzc_disp, pmnm_ac, pmnm_vel, pmnm_disp, sa, sv, sd, pga, pgv, pgd,
    lazily, bind, gets, ret; cbn; rewrite E; reflexivity.
Qed.

Ltac grid_read g :=
  destruct g as [np h ct cf cfs cfs2 cm ctp c2 c4 cn2 cn4];
  unfold grid_at_defaults, ops.grid_coherent; cbn.

Ltac cache_goal :=
  first
    [ assumption
    | reflexivity
    | let E := fresh in
      intros ? E;
      first [ discriminate E | injection E as <- ];
      first [ reflexivity | eassumption | now exists ops.default_band
            | eexists; split; [eassumption | reflexivity] ] ].

(** The grid reads keep a grid at its defaults and its two scalars. *)
Lemma t_at_defaults (g : DomainConfig) :
  grid_at_defaults g ->
  grid_at_defaults (snd (domain_config.t g)) /\
  _npts (snd (domain_config.t g)) = _npts g /\ _dt (snd (domain_config.t g)) = _dt g.
Proof.
  grid_read g. intros ((Ht & Hf & Hs & Hm) & Hb & Hp).
  unfold domain_config.t, bind, gets, modify, ret; cbn.
  destruct ct; cbn; repeat split; cache_goal.
Qed.

Lemma freq_at_defaults (g : DomainConfig) :
  grid_at_defaults g ->
  fst (freq g) = Ok (signal_analysis.get_freq (_npts g) (_dt g)) /\
  grid_at_defaults (snd (freq g)) /\
  _npts (snd (freq g)) = _npts g /\ _dt (snd (freq g)) = _dt g.
Proof.
  grid_read g. intros ((Ht & Hf & Hs & Hm) & Hb & Hp).
  unfold freq, bind, gets, modify, ret; cbn.
  destruct cf as [a |]; cbn; [pose proof (Hf a eq_refl) as -> |];
    repeat split; cache_goal.
Qed.

Lemma freq_sim_at_defaults (g : DomainConfig) :
  grid_at_defaults g ->
  grid_at_defaults (snd (freq_sim g)) /\
  _npts (snd (freq_sim g)) = _npts g /\ _dt (snd (freq_sim g)) = _dt g.
Proof.
  grid_read g. intros ((Ht & Hf & Hs & Hm) & Hb & Hp).
  unfold freq_sim, bind, gets, modify, ret, lift; cbn.
  destruct cfs as [a |]; cbn; [repeat split; assumption |].
  destruct (npts_sim np) as [ns | e] eqn:E; cbn; repeat split; cache_goal.
Qed.

Lemma freq_mask_at_defaults (g : DomainConfig) :
  grid_at_defaults g ->
  fst (freq_mask g)
  = Ok (signal_analysis.get_freq_mask
          (signal_analysis.get_freq (_npts g) (_dt g)) ops.default_band) /\
  grid_at_defaults (snd (freq_mask g)) /\
  _npts (snd (freq_mask g)) = _npts g /\ _dt (snd (freq_mask g)) = _dt g.
Proof.
  grid_read g. intros ((Ht & Hf & Hs & Hm) & Hb & Hp).
  unfold freq_mask, set_freq_mask, freq, bind, gets, modify, ret; cbn.
  destruct cm as [b |]; cbn.
  - pose proof (Hb b eq_refl) as ->. repeat split; cache_goal.
  - destruct cf as [a |]; cbn; [pose proof (Hf a eq_refl) as -> |];
      repeat split; cache_goal.
Qed.

Lemma tp_at_defaults (g : DomainConfig) :
  grid_at_defaults g ->
  fst (tp g)
  = (let '(start, stop, step) := default_periods in np_arange start stop step) /\
  grid_at_defaults (snd (tp g)) /\
  _npts (snd (tp g)) = _npts g /\ _dt (snd (tp g)) = _dt g.
Proof.
  grid_read g. intros ((Ht & Hf & Hs & Hm) & Hb & Hp).
  unfold tp, set_tp, bind, gets, modify, ret, lift; cbn.
  destruct ctp as [p |]; cbn.
  - rewrite (Hp p eq_refl). repeat split; cache_goal.
  - destruct (np_arange _ _ _) as [p | e] eqn:E; cbn; repeat split; cache_goal.
Qed.

Lemma up_to_date_of_signals (m m' : Motion) :
  up_to_date m -> signals m' = signals m ->
  grid_at_defaults (grid m') ->
  (forall a, derived m' a = derived m a) ->
  _energy_mask m' = _energy_mask m ->
  up_to_date m'.
Proof.
  intros (Hg & Hd & He) Hs Hg' Hd' He'. split; [assumption |]. split.
  - intros a v E. rewrite (current_of_signals a m m' Hs). apply Hd. now rewrite <- Hd'.
  - intros b E. rewrite He' in E. destruct (He b E) as (r & Hr). exists r.
    unfold signals in Hs. injection Hs as _ Eh Ea _ _. now rewrite Eh, Ea.
Qed.

Lemma bind_at {A B} (c : M Motion A) (k : A -> M Motion B) (m : Motion)
    (P : A -> Prop) (Q : B -> Prop) :
  sound_at c m P ->
  (forall a m1, up_to_date m1 -> signals m1 = signals m -> P a -> sound_at (k a) m1 Q) ->
  sound_at (bind c k) m Q.
Proof.
  unfold sound_at, bind. intros (Hu & Hs & Hv) Hk.
  destruct (c m) as [[a | e] m1]; cbn in *.
  - destruct (Hk a m1 Hu Hs (Hv a eq_refl)) as (Hu' & Hs' & Hv').
    split; [assumption |]. split; [now rewrite Hs' | assumption].
  - split; [assumption |]. split; [assumption | intros v E; discriminate E].
Qed.

Lemma weaken_at {A} (c : M Motion A) (m : Motion) (P Q : A -> Prop) :
  sound_at c m P -> (forall v, P v -> Q v) -> sound_at c m Q.
Proof.
  intros (Hu & Hs & Hv) HPQ. split; [assumption |]. split; [assumption | auto].
Qed.

Lemma gets_at {A} (f : Motion -> A) (m : Motion) :
  up_to_date m -> sound_at (gets f) m (fun v => v = f m).
Proof.
  intros Hu. split; [assumption |]. split; [reflexivity |].
  cbn. intros v E. now injection E as <-.
Qed.

Lemma lift_at {A} (r : result A) (m : Motion) :
  up_to_date m -> sound_at (lift r) m (fun v => r = Ok v).
Proof. intros Hu. split; [assumption |]. split; [reflexivity | auto]. Qed.

Lemma ret_at {A} (a : A) (m : Motion) :
  up_to_date m -> sound_at (ret a) m (fun v => v = a).
Proof.
  intros Hu. split; [assumption |]. split; [reflexivity |].
  cbn. intros v E. now injection E as <-.
Qed.

Lemma inherited_at {A} (c : M DomainConfig A) (m : Motion) (Q : A -> Prop) :
  up_to_date m ->
  grid_at_defaults (snd (c (grid m))) ->
  _npts (snd (c (grid m))) = _npts (grid m) ->
  _dt (snd (c (grid m))) = _dt (grid m) ->
  (forall v, fst (c (grid m)) = Ok v -> Q v) ->
  sound_at (inherited c) m Q.
Proof.
  intros Hu Hg Hn Hh Hv. unfold sound_at, inherited, zoom.
  destruct (c (grid m)) as [r g']. cbn in *.
  assert (Hs : signals (with_grid g' m) = signals m)
    by (unfold signals; cbn; now rewrite Hn, Hh).
  split; [| split; assumption].
  now apply (up_to_date_of_signals m).
Qed.

Lemma self_npts_at (m : Motion) :
  up_to_date m -> sound_at self_npts m (fun v => v = _npts (grid m)).
Proof.
  intros Hu. apply inherited_at; try assumption; try reflexivity; [apply Hu |].
  cbn. intros v E. now injection E as <-.
Qed.

Lemma self_dt_at (m : Motion) :
  up_to_date m -> sound_at self_dt m (fun v => v = _dt (grid m)).
Proof.
  intros Hu. apply inherited_at; try assumption; try reflexivity; [apply Hu |].
  cbn. intros v E. now injection E as <-.
Qed.

Lemma put_at (a : attr) (v : value) (m : Motion) :
  up_to_date m -> current a m = Ok v ->
  sound_at (modify (put a (Some v))) m (fun _ => True).
Proof.
  intros (Hg & Hd & He) Hc. unfold sound_at, modify. cbn.
  split; [| split; [reflexivity | auto]].
  split; [assumption |]. split; [| assumption].
  intros b w E. cbn in E.
  rewrite (current_of_signals b m (put a (Some v) m) eq_refl).
  destruct (attr_eqb a b) eqn:Eab.
  - apply attr_eqb_eq in Eab. subst b. now injection E as <-.
  - now apply Hd.
Qed.

Lemma lazily_at (a : attr) (compute : M Motion value) (m : Motion) :
  up_to_date m ->
  sound_at compute m (fun v => current a m = Ok v) ->
  sound_at (lazily a compute) m (fun v => current a m = Ok v).
Proof.
  intros Hu Hc. unfold sound_at.
  change (lazily a compute m)
    with ((match derived m a with
           | Some v => ret v
           | None => bind compute
                       (fun v => bind (modify (put a (Some v))) (fun _ => ret v))
           end) m).
  destruct (derived m a) as [v |] eqn:E.
  - cbn. split; [assumption |]. split; [reflexivity |].
    intros w Ew. injection Ew as <-. now apply Hu.
  - fold (sound_at (bind compute (fun v => bind (modify (put a (Some v)))
                                             (fun _ => ret v))) m
            (fun v => current a m = Ok v)).
    apply (bind_at _ _ m (fun v => current a m = Ok v)); [assumption |].
    intros v m1 Hu1 Hs1 Hv.
    assert (Hv1 : current a m1 = Ok v) by now rewrite (current_of_signals a m m1 Hs1).
    apply (bind_at _ _ m1 (fun _ => True)); [now apply put_at |].
    intros _ m2 Hu2 Hs2 _.
    apply (weaken_at _ _ (fun w => w = v)); [now apply ret_at |].
    now intros w ->.
Qed.

Ltac signal_of Hs :=
  let En := fresh "En" in
  let Eh := fresh "Eh" in
  let Ea := fresh "Ea" in
  let Ev := fresh "Ev" in
  let Ed := fresh "Ed" in
  destruct (signals_inv _ _ Hs) as (En & Eh & Ea & Ev & Ed);
  try rewrite En in *; try rewrite Eh in *; try rewrite Ea in *;
  try rewrite Ev in *; try rewrite Ed in *.

Lemma metric_at (a : attr) (sig : Motion -> ndarray) (f : ndarray -> result value)
    (m : Motion) :
  up_to_date m ->
  (forall v, f (sig m) = Ok v -> current a m = Ok v) ->
  (forall m1, signals m1 = signals m -> sig m1 = sig m) ->
  sound_at (lazily a (bind (gets sig) (fun x => lift (f x)))) m
    (fun v => current a m = Ok v).
Proof.
  intros Hu Hf Hsig. apply lazily_at; [assumption |].
  apply (bind_at _ _ m (fun x => x = sig m)); [now apply gets_at |].
  intros x m1 Hu1 Hs1 ->.
  apply (weaken_at _ _ (fun v => f (sig m) = Ok v)); [now apply lift_at | assumption].
Qed.

Lemma get_spectra_at (m : Motion) :
  up_to_date m ->
  sound_at get_spectra m (fun r => current_spectra m = Ok r).
Proof.
  intros Hu. unfold get_spectra.
  apply (bind_at _ _ m (fun h => h = _dt (grid m))); [now apply self_dt_at |].
  intros h m1 Hu1 Hs1 ->.
  apply (bind_at _ _ m1 (fun x => x = ac m)).
  { apply (weaken_at _ _ (fun x => x = ac m1)); [now apply gets_at |].
    intros x ->. now signal_of Hs1. }
  intros x m2 Hu2 Hs2 ->.
  apply (bind_at _ _ m2
           (fun p => (let '(start, stop, step) := default_periods in
                      np_arange start stop step) = Ok p)).
  { destruct (tp_at_defaults (grid m2) (proj1 Hu2)) as (Hv & Hg & Hn & Hh).
    apply inherited_at; try assumption. intros p Ep. now rewrite <- Hv. }
  intros p m3 Hu3 Hs3 Hp.
  assert (Hr : forall r,
             signal_analysis_get_spectra (_dt (grid m)) (ac m) p 0x1.999999999999ap-5
             = Ok r -> current_spectra m = Ok r).
  { intros r Er. unfold current_spectra. cbn in Hp |- *. rewrite Hp. exact Er. }
  apply (bind_at _ _ m3
           (fun r => current_spectra m = Ok r)).
  { apply (weaken_at _ _ (fun r => signal_analysis_get_spectra (_dt (grid m)) (ac m) p
                                    0x1.999999999999ap-5 = Ok r));
      [now apply lift_at | assumption]. }
  clear Hr. intros [[d v] a] m4 Hu4 Hs4 Hc.
  assert (Hall : forall s, signals s = signals m -> current_spectra s = Ok (d, v, a)).
  { intros s Hs. unfold current_spectra in *. now signal_of Hs. }
  assert (S4 : signals m4 = signals m) by now rewrite Hs4, Hs3, Hs2.
  apply (bind_at _ _ m4 (fun _ => True)).
  { apply put_at; [assumption |]. unfold current. now rewrite (Hall m4 S4). }
  intros _ m5 Hu5 Hs5 _.
  assert (S5 : signals m5 = signals m) by now rewrite Hs5.
  apply (bind_at _ _ m5 (fun _ => True)).
  { apply put_at; [assumption |]. unfold current. now rewrite (Hall m5 S5). }
  intros _ m6 Hu6 Hs6 _.
  assert (S6 : signals m6 = signals m) by now rewrite Hs6.
  apply (bind_at _ _ m6 (fun _ => True)).
  { apply put_at; [assumption |]. unfold current. now rewrite (Hall m6 S6). }
  intros _ m7 Hu7 Hs7 _.
  apply (weaken_at _ _ (fun w => w = (d, v, a))); [now apply ret_at |].
  now intros w ->.
Qed.

Lemma spectrum_at (a : attr) (pick : value * value * value -> value) (m : Motion) :
  up_to_date m ->
  (forall s, current a s = and_then (current_spectra s) (fun r => Ok (pick r))) ->
  sound_at (bind (gets (fun s => derived s a))
              (fun c => match c with
                        | Some v => ret v
                        | None => bind get_spectra (fun r => ret (pick r))
                        end)) m
    (fun v => current a m = Ok v).
Proof.
  intros Hu Hpick.
  apply (bind_at _ _ m (fun c => c = derived m a));
    [now apply (gets_at (fun s => derived s a)) |].
  intros c m1 Hu1 Hs1 ->.
  destruct (derived m a) as [v |] eqn:E.
  - apply (weaken_at _ _ (fun w => w = v)); [now apply ret_at |].
    intros w ->. now apply Hu.
  - apply (bind_at _ _ m1 (fun r => current_spectra m1 = Ok r));
      [now apply get_spectra_at |].
    intros r m2 Hu2 Hs2 Hr.
    apply (weaken_at _ _ (fun w => w = pick r)); [now apply ret_at |].
    intros w ->. rewrite <- (current_of_signals a m m1 Hs1), Hpick, Hr. reflexivity.
Qed.

Lemma fas_at (m : Motion) :
  up_to_date m -> sound_at fas m (fun v => current _fas m = Ok v).
Proof.
  intros Hu. apply lazily_at; [assumption |].
  apply (bind_at _ _ m (fun n => n = _npts (grid m))); [now apply self_npts_at |].
  intros n m1 Hu1 Hs1 ->.
  apply (bind_at _ _ m1 (fun x => x = ac m)).
  { apply (weaken_at _ _ (fun x => x = ac m1)); [now apply gets_at |].
    intros x ->. now signal_of Hs1. }
  intros x m2 Hu2 Hs2 ->. now apply lift_at.
Qed.

Lemma ce_at (m : Motion) :
  up_to_date m -> sound_at ce m (fun v => current _ce m = Ok v).
Proof.
  intros Hu. apply lazily_at; [assumption |].
  apply (bind_at _ _ m (fun n => n = _dt (grid m))); [now apply self_dt_at |].
  intros n m1 Hu1 Hs1 ->.
  apply (bind_at _ _ m1 (fun x => x = ac m)).
  { apply (weaken_at _ _ (fun x => x = ac m1)); [now apply gets_at |].
    intros x ->. now signal_of Hs1. }
  intros x m2 Hu2 Hs2 ->. now apply lift_at.
Qed.

Lemma fas_star_at (m : Motion) :
  up_to_date m -> sound_at fas_star m (fun v => current _fas_star m = Ok v).
Proof.
  intros Hu. apply lazily_at; [assumption |].
  apply (bind_at _ _ m (fun f => current _fas m = Ok f)); [now apply fas_at |].
  intros f m1 Hu1 Hs1 Hf.
  apply (bind_at _ _ m1 (fun x => signal_processing_moving_average f 9 = Ok x));
    [now apply lift_at |].
  intros x m2 Hu2 Hs2 Hx.
  assert (S2 : signals m2 = signals m) by now rewrite Hs2.
  apply (bind_at _ _ m2
           (fun k => k = signal_analysis.get_freq_mask
                           (signal_analysis.get_freq (_npts (grid m)) (_dt (grid m)))
                           ops.default_band)).
  { destruct (freq_mask_at_defaults (grid m2) (proj1 Hu2)) as (Hv & Hg & Hn & Hh).
    apply inherited_at; try assumption. intros k Ek. rewrite Hv in Ek.
    injection Ek as <-. now signal_of S2. }
  intros k m3 Hu3 Hs3 ->.
  apply (weaken_at _ _ (fun v => index_last_axis x
           (signal_analysis.get_freq_mask
              (signal_analysis.get_freq (_npts (grid m)) (_dt (grid m)))
              ops.default_band) = Ok v)); [now apply lift_at |].
  intros v Ev. cbn in Hf |- *. rewrite Hf. cbn. rewrite Hx. exact Ev.
Qed.

(** Every read of a derived attribute keeps the motion up to date, and
    what it returns is the helpers' value on the current signals. *)
Lemma read_at (a : attr) (m : Motion) :
  up_to_date m -> sound_at (read a) m (fun v => current a m = Ok v).
Proof.
  intros Hu. destruct a; cbn [read].
  - now apply fas_at.
  - now apply fas_star_at.
  - now apply ce_at.
  - apply metric_at; auto. intros m1 Hs. now destruct (signals_inv _ _ Hs) as (? & ? & ? & ? & ?).
  - apply metric_at; auto. intros m1 Hs. now destruct (signals_inv _ _ Hs) as (? & ? & ? & ? & ?).
  - apply metric_at; auto. intros m1 Hs. now destruct (signals_inv _ _ Hs) as (? & ? & ? & ? & ?).
  - apply metric_at; auto. intros m1 Hs. now destruct (signals_inv _ _ Hs) as (? & ? & ? & ? & ?).
  - apply metric_at; auto. intros m1 Hs. now destruct (signals_inv _ _ Hs) as (? & ? & ? & ? & ?).
  - apply metric_at; auto. intros m1 Hs. now destruct (signals_inv _ _ Hs) as (? & ? & ? & ? & ?).
  - apply metric_at; auto. intros m1 Hs. now destruct (signals_inv _ _ Hs) as (? & ? & ? & ? & ?).
  - apply metric_at; auto. intros m1 Hs. now destruct (signals_inv _ _ Hs) as (? & ? & ? & ? & ?).
  - apply metric_at; auto. intros m1 Hs. now destruct (signals_inv _ _ Hs) as (? & ? & ? & ? & ?).
  - apply (spectrum_at _sd (fun r => fst (fst r))); auto.
  - apply (spectrum_at _sv (fun r => snd (fst r))); auto.
  - apply (spectrum_at _sa snd); auto.
  - apply metric_at; auto. intros m1 Hs. now destruct (signals_inv _ _ Hs) as (? & ? & ? & ? & ?).
  - apply metric_at; auto. intros m1 Hs. now destruct (signals_inv _ _ Hs) as (? & ? & ? & ? & ?).
  - apply metric_at; auto. intros m1 Hs. now destruct (signals_inv _ _ Hs) as (? & ? & ? & ? & ?).
Qed.

(** ** Calls that replace the signals *)

Ltac by_cases :=
  repeat match goal with
         | |- context [match ?x with _ => _ end] => destruct x eqn:?; cbn
         end.

Lemma filter_returns (f : float * float) (m : Motion) :
  fst (filter f m) = Ok tt -> cleared m (snd (filter f m)).
Proof.
  destruct m as [g a v d dv em]. unfold cleared. unfold_motion. cbn. by_cases.
  all: intros E; try discriminate E.
  split; [reflexivity |]. split; [reflexivity |]. now left.
Qed.

Lemma resample_returns (h : float) (m : Motion) :
  fst (resample h m) = Ok tt -> cleared m (snd (resample h m)).
Proof.
  destruct m as [g a v d dv em]. unfold cleared. unfold_motion. cbn. by_cases.
  all: intros E; try discriminate E.
  split; [reflexivity |]. split; [reflexivity |]. now right.
Qed.

Lemma apply_mask_returns (mask : list bool) (m : Motion) :
  fst (apply_mask mask m) = Ok tt -> cleared m (snd (apply_mask mask m)).
Proof.
  destruct m as [g a v d dv em]. unfold cleared. unfold_motion.
  unfold boolean_index. cbn. by_cases.
  all: intros E; try discriminate E.
  split; [reflexivity |]. split; [reflexivity |]. now right.
Qed.

Lemma bind_returns {S A B} (c : M S A) (k : A -> M S B) (s s' : S) (b : B) :
  bind c k s = (Ok b, s') ->
  exists a s1, c s = (Ok a, s1) /\ k a s1 = (Ok b, s').
Proof.
  unfold bind. destruct (c s) as [[a | e] s1]; intros E; [| discriminate E].
  now exists a, s1.
Qed.

Lemma set_energy_mask_grid (r : (float * float) + list bool) (m : Motion) :
  grid (snd (set_energy_mask r m)) = grid m.
Proof. destruct m as [g a v d dv em]. unfold_motion. cbn. by_cases; reflexivity. Qed.

Lemma energy_mask_grid (m : Motion) : grid (snd (energy_mask m)) = grid m.
Proof. destruct m as [g a v d dv em]. unfold_motion. cbn. by_cases; reflexivity. Qed.

Lemma set_range_returns (option : string) (rs : (float * float) + list bool) (m : Motion) :
  fst (set_range option rs m) = returned -> cleared m (snd (set_range option rs m)).
Proof.
  unfold set_range.
  destruct (String.eqb (lower option) "energy").
  - destruct ((set_energy_mask rs ;;; (mask <- energy_mask ;; apply_mask mask))%monad m)
      as [[[] | e] m3] eqn:E; cbn [fst snd outcome_of]; [intros _ | discriminate].
    apply bind_returns in E as (u & m1 & E1 & E).
    apply bind_returns in E as (mask & m2 & E2 & E3).
    pose proof (set_energy_mask_grid rs m) as G1. rewrite E1 in G1. cbn in G1.
    pose proof (energy_mask_grid m1) as G2. rewrite E2 in G2. cbn in G2.
    pose proof (apply_mask_returns mask m2) as Ha. rewrite E3 in Ha. cbn in Ha.
    destruct (Ha eq_refl) as (Hd & Hem & Hg).
    split; [assumption |]. split; [assumption |].
    destruct Hg as [Hg | Hg]; [left | now right]. now rewrite Hg, G2.
  - destruct (String.eqb (lower option) "mask"); [| discriminate].
    destruct rs as [pair | mask]; [discriminate |].
    pose proof (apply_mask_returns mask m) as Ha.
    destruct (apply_mask mask m) as [[[] | e] m3]; cbn in *; [| discriminate].
    intros _. now apply Ha.
Qed.

Lemma cleared_up_to_date (m m' : Motion) :
  up_to_date m -> cleared m m' -> up_to_date m'.
Proof.
  intros (Hg & _) (Hd & He & Hgrid). split; [| split].
  - destruct Hgrid as [-> | <-]; [assumption |].
    unfold grid_at_defaults, ops.grid_coherent. cbn.
    repeat split; intros ? E; discriminate E.
  - intros a v E. rewrite Hd in E. discriminate E.
  - intros b E. rewrite He in E. discriminate E.
Qed.

(** ** The energy mask *)

Lemma set_energy_mask_keeps (r : (float * float) + list bool) (m : Motion) :
  up_to_date m -> up_to_date (snd (set_energy_mask r m)).
Proof.
  intros Hu. destruct m as [g a v d dv em]. unfold_motion. cbn.
  destruct (signal_analysis_get_energy_mask (_dt g) a r) as [b | e] eqn:E; cbn;
    [| exact Hu].
  destruct Hu as (Hg & Hd & He). split; [exact Hg |]. split; [exact Hd |].
  intros b' Eb. cbn in Eb. injection Eb as <-. now exists r.
Qed.

Lemma energy_mask_keeps (m : Motion) :
  up_to_date m -> up_to_date (snd (energy_mask m)).
Proof.
  intros Hu. destruct m as [g a v d dv em]. unfold_motion. cbn.
  destruct em as [b |]; cbn; [exact Hu |].
  destruct (signal_analysis_get_energy_mask (_dt g) a (inl default_energy_range))
    as [b | e] eqn:E; cbn; [| exact Hu].
  destruct Hu as (Hg & Hd & He). split; [exact Hg |]. split; [exact Hd |].
  intros b' Eb. cbn in Eb. injection Eb as <-. now exists (inl default_energy_range).
Qed.

(** ** Sequences of calls *)

Lemma run_outcome {A} (c : M Motion A) (m : Motion) :
  snd (let (r, m') := c m in
       (match r with Ok _ => returned | Raise e => raised e end, m')) = snd (c m).
Proof. now destruct (c m). Qed.

Lemma step_keeps (o : motion_op) (m : Motion) :
  up_to_date m ->
  (replaces_signals o = true -> fst (step o m) = returned \/ snd (step o m) = m) ->
  up_to_date (snd (step o m)).
Proof.
  intros Hu Hr. destruct o; cbn [step replaces_signals] in *.
  - destruct (Hr eq_refl) as [E | ->]; [| assumption].
    apply (cleared_up_to_date m); [assumption | now apply set_range_returns].
  - destruct (Hr eq_refl) as [E | ->]; [| assumption].
    pose proof (filter_returns bandpass_freqs m) as Hf.
    destruct (filter bandpass_freqs m) as [[[] | e] m']; cbn in *; [| discriminate E].
    apply (cleared_up_to_date m); auto.
  - destruct (Hr eq_refl) as [E | ->]; [| assumption].
    pose proof (resample_returns dt_new m) as Hf.
    destruct (resample dt_new m) as [[[] | e] m']; cbn in *; [| discriminate E].
    apply (cleared_up_to_date m); auto.
  - rewrite run_outcome. now apply set_energy_mask_keeps.
  - rewrite run_outcome. now apply read_at.
  - rewrite run_outcome. now apply energy_mask_keeps.
  - rewrite run_outcome.
    destruct (tp_at_defaults (grid m) (proj1 Hu)) as (_ & Hg & Hn & Hh).
    now apply (inherited_at tp m (fun _ => True)).
  - rewrite run_outcome.
    destruct (t_at_defaults (grid m) (proj1 Hu)) as (Hg & Hn & Hh).
    now apply (inherited_at domain_config.t m (fun _ => True)).
  - rewrite run_outcome.
    destruct (freq_at_defaults (grid m) (proj1 Hu)) as (_ & Hg & Hn & Hh).
    now apply (inherited_at freq m (fun _ => True)).
  - rewrite run_outcome.
    destruct (freq_sim_at_defaults (grid m) (proj1 Hu)) as (Hg & Hn & Hh).
    now apply (inherited_at freq_sim m (fun _ => True)).
  - rewrite run_outcome.
    destruct (freq_mask_at_defaults (grid m) (proj1 Hu)) as (_ & Hg & Hn & Hh).
    now apply (inherited_at freq_mask m (fun _ => True)).
Qed.

Lemma run_keeps (os : list motion_op) (m : Motion) :
  up_to_date m -> undisturbed os m -> up_to_date (run os m).
Proof.
  revert m. induction os as [| o os IH]; intros m Hu Hos; cbn in *; [assumption |].
  destruct Hos as (Ho & Hos). apply IH; [| assumption]. now apply step_keeps.
Qed.

Lemma constructed_up_to_date (n : Z) (h : float) (a v d : ndarray) (m : Motion) :
  motion_model.__init__ n h a v d = Ok m -> up_to_date m.
Proof.
  unfold motion_model.__init__. cbn. intros E. injection E as <-.
  unfold up_to_date, grid_at_defaults, ops.grid_coherent. cbn.
  repeat split; intros; match goal with E : None = Some _ |- _ => discriminate E end.
Qed.

(** The derived attributes of [Motion] are never stale.  Start from a
    constructed motion and make any sequence of calls of [set_range],
    [filter], [resample], the energy-mask setter and reads of any property,
    in which each of the three signal-replacing calls returns or fails
    before it changed anything.  Whatever a derived property then returns
    is what the helpers give on the signals, [npts] and [dt] the motion
    holds at that moment (default band, default periods): a cached value
    never survives a change of the signals. *)
Theorem derived_attributes_are_never_stale
    (n : Z) (h : float) (a0 v0 d0 : ndarray) (m0 : Motion)
    (os : list motion_op) (a : attr) (v : value) :
  motion_model.__init__ n h a0 v0 d0 = Ok m0 ->
  undisturbed os m0 ->
  returns (read a) (run os m0) v ->
  current a (run os m0) = Ok v.
Proof.
  intros Hi Hos Hv.
  assert (Hu : up_to_date (run os m0))
    by (apply run_keeps; [now apply (constructed_up_to_date n h a0 v0 d0) | assumption]).
  now apply (read_at a (run os m0) Hu).
Qed.

(** The inherited setters do not reset the attributes of [Motion].  An
    assignment of [npts], [dt] or the frequency band, or a read of a grid
    axis, goes through [DomainConfig] alone: a derived attribute that was
    set is served unchanged afterwards, computed from the old [npts] and
    [dt], and the signals and the energy mask stay as they were. *)
Theorem grid_assignments_pass_derived_attributes_by
    (o : ops.grid_op) (m : Motion) (a : attr) (v : value) :
  derived m a = Some v ->
  let m' := snd (inherited (ops.grid_step o) m) in
  read a m' = (Ok v, m') /\
  ac m' = ac m /\ vel m' = vel m /\ disp m' = disp m /\
  _energy_mask m' = _energy_mask m.
Proof.
  intros E m'. subst m'. unfold inherited, zoom.
  destruct (ops.grid_step o (grid m)) as [r g']. cbn.
  split; [| now repeat split]. now apply read_cached.
Qed.

Lemma lazily_sets (a : attr) (compute : M Motion value) (m : Motion) (v : value) :
  fst (lazily a compute m) = Ok v -> derived (snd (lazily a compute m)) a = Some v.
Proof.
  unfold lazily, bind, gets, modify, ret. cbn.
  destruct (derived m a) as [w |] eqn:E; cbn.
  - intros Ev. injection Ev as <-. assumption.
  - destruct (compute m) as [[w | e] m1]; cbn; intros Ev; [| discriminate Ev].
    injection Ev as <-. now rewrite attr_eqb_refl.
Qed.

Lemma get_spectra_sets (m : Motion) (r : value * value * value) :
  fst (get_spectra m) = Ok r ->
  derived (snd (get_spectra m)) _sd = Some (fst (fst r)) /\
  derived (snd (get_spectra m)) _sv = Some (snd (fst r)) /\
  derived (snd (get_spectra m)) _sa = Some (snd r).
Proof.
  destruct m as [g a v d dv em]. unfold get_spectra. unfold_motion. cbn -[tp].
  destruct (tp g) as [[p | e] g']; cbn; [| discriminate].
  destruct (signal_analysis_get_spectra (_dt g) a p _) as [[[sd0 sv0] sa0] | e]; cbn;
    [| discriminate].
  intros E. injection E as <-. cbn. auto.
Qed.

Lemma spectrum_sets (a : attr) (pick : value * value * value -> value) (m : Motion)
    (v : value) :
  let c := bind (gets (fun s => derived s a))
             (fun c => match c with
                       | Some v => ret v
                       | None => bind get_spectra (fun r => ret (pick r))
                       end) in
  fst (c m) = Ok v ->
  (derived m a = Some v /\ snd (c m) = m) \/
  (derived m a = None /\
   exists r, fst (get_spectra m) = Ok r /\ v = pick r /\ snd (c m) = snd (get_spectra m)).
Proof.
  intros c.
  assert (Ec : c m = (match derived m a with
                      | Some v => ret v
                      | None => bind get_spectra (fun r => ret (pick r))
                      end) m) by reflexivity.
  rewrite Ec. clear Ec c.
  destruct (derived m a) as [w |].
  - cbn. intros Ev. injection Ev as <-. now left.
  - unfold bind, ret. destruct (get_spectra m) as [[r | e] m1]; cbn; intros Ev;
      [| discriminate Ev].
    injection Ev as <-. right. split; [reflexivity |]. now exists r.
Qed.

Lemma read_sets (a : attr) (m : Motion) (v : value) :
  returns (read a) m v ->
  derived (snd (read a m)) a = Some v /\
  (spectral a = true -> derived m a = None ->
   forall b, spectral b = true -> derived (snd (read a m)) b <> None).
Proof.
  unfold returns. intros Hv.
  destruct a; cbn [read spectral] in *;
    try (split; [now apply lazily_sets | intros D; discriminate D]).
  - unfold sd in *.
    destruct (spectrum_sets _sd (fun r => fst (fst r)) m v Hv)
      as [(E & Em) | (E & r & Hr & Ev & Em)]; rewrite Em.
    + split; [assumption |]. intros _ D. rewrite D in E. discriminate E.
    + destruct (get_spectra_sets m r Hr) as (Hd & Hs & Ha). subst v.
      split; [assumption |]. intros _ _ b Hb.
      destruct b; try discriminate Hb; intros D;
        rewrite ?Hd, ?Hs, ?Ha in D; discriminate D.
  - unfold sv in *.
    destruct (spectrum_sets _sv (fun r => snd (fst r)) m v Hv)
      as [(E & Em) | (E & r & Hr & Ev & Em)]; rewrite Em.
    + split; [assumption |]. intros _ D. rewrite D in E. discriminate E.
    + destruct (get_spectra_sets m r Hr) as (Hd & Hs & Ha). subst v.
      split; [assumption |]. intros _ _ b Hb.
      destruct b; try discriminate Hb; intros D;
        rewrite ?Hd, ?Hs, ?Ha in D; discriminate D.
  - unfold sa in *.
    destruct (spectrum_sets _sa snd m v Hv)
      as [(E & Em) | (E & r & Hr & Ev & Em)]; rewrite Em.
    + split; [assumption |]. intros _ D. rewrite D in E. discriminate E.
    + destruct (get_spectra_sets m r Hr) as (Hd & Hs & Ha). subst v.
      split; [assumption |]. intros _ _ b Hb.
      destruct b; try discriminate Hb; intros D;
        rewrite ?Hd, ?Hs, ?Ha in D; discriminate D.
Qed.

(** Derived properties are memoised, and one call fills the three
    spectra.  After a derived property returned a value, reading it again
    returns the same value and changes nothing.  When a response spectrum
    ([sd], [sv] or [sa]) is read while unset, the one call of [get_spectra]
    sets all three, so each of them is then served without a further
    call. *)
Theorem derived_reads_are_memoised (a : attr) (m : Motion) (v : value) :
  returns (read a) m v ->
  let m' := snd (read a m) in
  read a m' = (Ok v, m') /\
  (spectral a = true -> derived m a = None ->
   forall b, spectral b = true -> exists w, read b m' = (Ok w, m')).
Proof.
  intros Hv m'. destruct (read_sets a m v Hv) as (Hd & Hsp). split.
  - now apply read_cached.
  - intros Ha D b Hb. specialize (Hsp Ha D b Hb). fold m' in Hsp.
    destruct (derived m' b) as [w |] eqn:E; [| now elim Hsp].
    exists w. now apply read_cached.
Qed.

End Motions.

Section MotionInstances.

Import Stdlib.Strings.String.

Lemma set_range_by_mask_witness :
  fst (motion_model.set_range (H := examples.plain) "Mask"%string
         (inr [true; false; true]) examples.motion3)
  = motion_model.returned.
Proof.
  refine (proj1 (proj1 (set_range_by_mask (H := examples.plain) "Mask"%string
                          [true; false; true] examples.motion3 eq_refl)
                   eq_refl eq_refl eq_refl)).
Defined.

Lemma derived_attributes_witness :
  motion_model.current (H := examples.plain) motion_model._ce
    (motion_model.run
       [motion_model.read_attr motion_model._ce;
        motion_model.call_filter (1, 2)%float;
        motion_model.call_set_range "Mask"%string (inr [true; false; true]);
        motion_model.read_attr motion_model._sa]
       examples.motion3)
  = Ok [0x1p-1; 0x1.1p+3]%float.
Proof.
  refine (derived_attributes_are_never_stale (H := examples.plain)
            3 0x1p-1 [1; 2; 4]%float [0x1p-1; 0x1.8p+0; 0x1.cp+1]%float
            [0x1p-2; 1; 0x1.6p+1]%float examples.motion3
            [motion_model.read_attr motion_model._ce;
             motion_model.call_filter (1, 2)%float;
             motion_model.call_set_range "Mask"%string (inr [true; false; true]);
             motion_model.read_attr motion_model._sa]
            motion_model._ce [0x1p-1; 0x1.1p+3]%float
            eq_refl _ eq_refl).
  cbn. repeat split; intros _; left; reflexivity.
Defined.

Lemma grid_assignments_witness :
  let m := snd (motion_model.ce (H := examples.plain) examples.motion3) in
  let m' := snd (motion_model.inherited (ops.grid_step (ops.assign_dt 0x1p-2)) m) in
  motion_model.read motion_model._ce m' = (Ok [0x1p-1; 0x1.4p+1; 0x1.5p+3]%float, m') /\
  motion_model.current motion_model._ce m' = Ok [0x1p-2; 0x1.4p+0; 0x1.5p+2]%float.
Proof.
  split.
  - refine (proj1 (grid_assignments_pass_derived_attributes_by (H := examples.plain)
                     (ops.assign_dt 0x1p-2)
                     (snd (motion_model.ce (H := examples.plain) examples.motion3))
                     motion_model._ce [0x1p-1; 0x1.4p+1; 0x1.5p+3]%float eq_refl)).
  - reflexivity.
Defined.

Lemma derived_reads_witness :
  let m' := snd (motion_model.sa (H := examples.plain) examples.motion3) in
  motion_model.read motion_model._sa m' = (Ok [1; 2; 4]%float, m').
Proof.
  refine (proj1 (derived_reads_are_memoised (H := examples.plain) motion_model._sa
                   examples.motion3 [1; 2; 4]%float eq_refl)).
Defined.

End MotionInstances.
